(** * PyMeasure instrument drivers: Keithley 705 scanner and KU SG 2.45 250 A

    A shallow embedding of
      - [pymeasure/instruments/keithley/keithley705.py]
      - [pymeasure/instruments/kuhneelectronic/kusg245_250a.py]
    together with the properties of their wire protocol.

    Conventions of the embedding.
      - A Python [int] is a [Z].  A Python [float] is the rational it denotes
        ([Q]); floats only occur as the result of [round(2 * v, -1) / 2] and
        in [phase_shift], see the remarks there.
      - A driver call is a computation in the monad [M]: it threads the
        attributes of [self] and the transport (the commands written so far,
        the replies the device still has to give) and either returns or
        raises.
      - Integer-valued properties are given integer inputs, as their
        docstrings declare ("integer from 0 to ..."). The power set-point,
        the power limit and the power of [tune] are numbers, integers or
        floats: there the code treats the two differently. *)

From Stdlib Require Import ZArith QArith Qround Qabs List String Ascii Bool Lia.
From Stdlib Require Import DecimalString Sorted Lqa.
From Stdlib Require DecimalPos DecimalN.
Import ListNotations.

Local Open Scope Z_scope.

Infix "+++" := String.append (at level 60, right associativity).

(* ================================================================== *)
(** ** Python: exceptions, the effect monad, numbers and formatting    *)
(* ================================================================== *)

Module Py.

Inductive exn : Type :=
| ValueError
| TypeError
| KeyError
| IndexError
| LookupError
| AssertionError
| TimeoutError.

Inductive outcome (A : Type) : Type :=
| Return (a : A)
| Raise (e : exn).
Arguments Return {A} a.
Arguments Raise {A} e.

(** A Python object, where a property may be given any: a boolean control
    is compared with [False] and [True] by [==], and [1 == True]. *)
Inductive object : Type :=
| Bool (b : bool)
| Int (z : Z)
| Str (s : string)
| NoneObject.

(** [a == b]. *)
Definition object_eqb (a b : object) : bool :=
  match a, b with
  | Bool x, Bool y => Bool.eqb x y
  | Bool x, Int z | Int z, Bool x => z =? (if x then 1 else 0)
  | Int x, Int y => x =? y
  | Str x, Str y => String.eqb x y
  | NoneObject, NoneObject => true
  | _, _ => false
  end.

(** A Python number: an [int], or a [float] taken as the rational it
    denotes. An integer is a number without further ado. *)
Inductive number : Type :=
| Integer (z : Z)
| Float (q : Q).

Coercion Integer : Z >-> number.

(** What the driver does to the outside world, in the order it does it. *)
Inductive event : Type :=
| Write (command : string)        (* [self.write(command)] *)
| Read (reply : string)           (* [self.read()] gave [reply] *)
| Sleep (seconds : Q).            (* [time.sleep(seconds)] *)

(** The transport: [wire] is the stream of events so far, oldest first;
    [pending] holds the replies the device will give to the next reads. *)
Record io : Type := mkIO { wire : list event; pending : list string }.

(** A method of an object whose attributes have type [S]. *)
Definition M (S A : Type) : Type := S -> io -> outcome A * S * io.

Definition ret {S A} (a : A) : M S A := fun self t => (Return a, self, t).

Definition bind {S A B} (m : M S A) (k : A -> M S B) : M S B :=
  fun self t =>
    match m self t with
    | (Return a, self', t') => k a self' t'
    | (Raise e, self', t') => (Raise e, self', t')
    end.

Definition raise {S A} (e : exn) : M S A := fun self t => (Raise e, self, t).

Definition lift {S A} (o : outcome A) : M S A :=
  match o with
  | Return a => ret a
  | Raise e => raise e
  end.

Definition get_self {S} : M S S := fun self t => (Return self, self, t).

Definition emit {S} (e : event) : M S unit :=
  fun self t => (Return tt, self, mkIO (wire t ++ [e]) (pending t)).

(** [Instrument.write]. *)
Definition write {S} (command : string) : M S unit := emit (Write command).

(** [Instrument.read]: the next reply of the device, a timeout if there is
    none. *)
Definition read {S} : M S string :=
  fun self t =>
    match pending t with
    | [] => (Raise TimeoutError, self, t)
    | r :: rest => (Return r, self, mkIO (wire t ++ [Read r]) rest)
    end.

(** [time.sleep]. *)
Definition sleep {S} (seconds : Q) : M S unit := emit (Sleep seconds).

(** [for x in xs: body(x)]. *)
Fixpoint for_each {S A} (xs : list A) (body : A -> M S unit) : M S unit :=
  match xs with
  | [] => ret tt
  | x :: rest => bind (body x) (fun _ => for_each rest body)
  end.

(** [range(a, b)] for [a <= b]: [n] integers from [a] on. *)
Fixpoint range_from (a : Z) (n : nat) : list Z :=
  match n with
  | O => []
  | S n' => a :: range_from (a + 1) n'
  end.

Definition range (a b : Z) : list Z := range_from a (Z.to_nat (b - a)).

(** *** Rounding *)

(** CPython's [_PyLong_DivmodNear a b] for [b > 0]: quotient rounded to the
    nearest integer, a tie going to the even quotient, and the remainder
    that goes with it. *)
Definition divmod_near (a b : Z) : Z * Z :=
  let q := a / b in
  let r := a mod b in
  if (b <? 2 * r) || ((2 * r =? b) && Z.odd q)
  then (q + 1, r - b)
  else (q, r).

(** [round(n, ndigits)] on an [int]: unchanged for [ndigits >= 0], else
    [n] minus the remainder of [divmod_near n (10 ** -ndigits)]. *)
Definition round_int (n ndigits : Z) : Z :=
  if 0 <=? ndigits then n
  else n - snd (divmod_near n (10 ^ (- ndigits))).

(** [round(x)] on a [float]: the nearest integer, a tie going to the even
    one. *)
Definition round_float (x : Q) : Z :=
  let f := Qfloor x in
  match Qcompare (x - inject_Z f) (1 # 2) with
  | Lt => f
  | Gt => f + 1
  | Eq => if Z.even f then f else f + 1
  end.

(** [int(x)] on a [float]: truncation towards zero. *)
Definition int_of_float (x : Q) : Z :=
  if Qle_bool 0 x then Qfloor x else Qceiling x.

(** *** Formatting *)

(** [str(n)] for [n >= 0]. *)
Definition digits (n : Z) : string :=
  NilZero.string_of_uint (N.to_uint (Z.to_N n)).

Fixpoint zeros (n : nat) : string :=
  match n with
  | O => EmptyString
  | S n' => String "0" (zeros n')
  end.

(** The conversion [%0<width>d] (and [{:0<width>d}]) of an [int]; width 0
    is the plain [%d]. The sign counts in the width. *)
Definition zfill (width : nat) (z : Z) : string :=
  let sign := if z <? 0 then String "-" EmptyString else EmptyString in
  let ds := digits (Z.abs z) in
  sign +++ zeros (width - String.length sign - String.length ds) +++ ds.

(** [pre%0<width>dpost % z]. *)
Definition percent_d (pre : string) (width : nat) (post : string) (z : Z)
  : string :=
  pre +++ zfill width z +++ post.

(** The same conversion given a [float]: Python converts with [int()]. *)
Definition percent_d_float (pre : string) (width : nat) (post : string)
           (x : Q) : string :=
  percent_d pre width post (int_of_float x).

(** The same conversion given a number of either kind. *)
Definition percent_d_number (pre : string) (width : nat) (post : string)
           (x : number) : string :=
  match x with
  | Integer z => percent_d pre width post z
  | Float q => percent_d_float pre width post q
  end.

(** The f-string [f"pre{x:0<width>d}"]: the format code [d] takes an [int]
    and raises [ValueError] for a [float]. *)
Definition fstring_d (pre : string) (width : nat) (x : number)
  : outcome string :=
  match x with
  | Integer z => Return (percent_d pre width "" z)
  | Float _ => Raise ValueError
  end.

(** [pre%spost % s] for a [str]. *)
Definition percent_s (pre post : string) (s : string) : string :=
  pre +++ s +++ post.

(** Reading a decimal numeral back. *)
Definition digit_value (c : ascii) : option Z :=
  let n := Z.of_nat (nat_of_ascii c) in
  if (48 <=? n) && (n <=? 57) then Some (n - 48) else None.

Fixpoint decimal_value_from (acc : Z) (s : string) : option Z :=
  match s with
  | EmptyString => Some acc
  | String c rest =>
      match digit_value c with
      | Some d => decimal_value_from (10 * acc + d) rest
      | None => None
      end
  end.

(** [Some n] when [s] consists of decimal digits only and denotes [n]. *)
Definition decimal_value (s : string) : option Z := decimal_value_from 0 s.

End Py.

Notation "x <- m ;; k" := (Py.bind m (fun x => k))
  (at level 61, m at next level, right associativity).
Notation "m ;;; k" := (Py.bind m (fun _ => k))
  (at level 61, right associativity).

Local Open Scope string_scope.
Local Open Scope list_scope.
Local Open Scope Z_scope.

Import Py.

(** The two views validators take of a value: [==] and, for numbers, the
    number itself. *)
Class PyEq (V : Type) : Type := { py_eqb : V -> V -> bool }.
Class PyNumber (V : Type) : Type := { num : V -> Q }.

#[export] Instance PyEq_Z : PyEq Z := {| py_eqb := Z.eqb |}.
#[export] Instance PyEq_object : PyEq object := {| py_eqb := object_eqb |}.
#[export] Instance PyEq_string : PyEq string := {| py_eqb := String.eqb |}.
#[export] Instance PyEq_Q : PyEq Q := {| py_eqb := Qeq_bool |}.
#[export] Instance PyNumber_Z : PyNumber Z := {| num := inject_Z |}.
#[export] Instance PyNumber_Q : PyNumber Q := {| num := fun q => q |}.
#[export] Instance PyNumber_number : PyNumber number :=
  {| num := fun x => match x with
                     | Integer z => inject_Z z
                     | Float q => q
                     end |}.

(* ================================================================== *)
(** ** [pymeasure.instruments.validators]                              *)
(* ================================================================== *)

Module Validators.

(** The default validator of a property, [lambda v, vs: v]. *)
Definition no_validator {V} (value : V) (values : list V) : outcome V :=
  Return value.

(** [value in values]. *)
Definition py_in {V} `{PyEq V} (value : V) (values : list V) : bool :=
  existsb (py_eqb value) values.

(** Modelled from the spec: [validators.strict_discrete_set] is not among
    the sources. It is the validator that "raise[s] on out-of-domain
    input", the domain being membership in [values]; a member is returned
    as it is. *)
Definition strict_discrete_set {V} `{PyEq V} (value : V) (values : list V)
  : outcome V :=
  if py_in value values then Return value else Raise ValueError.

Section Numbers.
Context {V : Type} `{PyNumber V}.

Definition le (a b : V) : bool := Qle_bool (num a) (num b).
Definition lt (a b : V) : bool := negb (Qle_bool (num b) (num a)).

(** [abs(a - b)]. *)
Definition dist (a b : V) : Q := Qabs (num a - num b).

(** [min(values)] and [max(values)]; the first of equal elements. *)
Fixpoint py_min_from (best : V) (rest : list V) : V :=
  match rest with
  | [] => best
  | m :: rest' => py_min_from (if lt m best then m else best) rest'
  end.

Fixpoint py_max_from (best : V) (rest : list V) : V :=
  match rest with
  | [] => best
  | m :: rest' => py_max_from (if lt best m then m else best) rest'
  end.

(** Modelled from the spec: [validators.truncated_range] is not among
    the sources. It is the validator that "clamps an out-of-range input
    to the nearest valid bound ... rather than rejecting it", the range
    being [[min(values), max(values)]]. *)
Definition truncated_range (value : V) (values : list V) : outcome V :=
  match values with
  | [] => Raise ValueError
  | b :: rest =>
      let lo := py_min_from b rest in
      let hi := py_max_from b rest in
      if le lo value && le value hi then Return value
      else if lt hi value then Return hi
      else Return lo
  end.

(** [sorted(values)]: stable, ascending. *)
Fixpoint insert_sorted (x : V) (sorted : list V) : list V :=
  match sorted with
  | [] => [x]
  | y :: rest => if le x y then x :: sorted else y :: insert_sorted x rest
  end.

Fixpoint py_sorted (values : list V) : list V :=
  match values with
  | [] => []
  | x :: rest => insert_sorted x (py_sorted rest)
  end.

(** The first member of the ascending [best :: rest] that is not below
    [value]; the last member when all are below. *)
Fixpoint round_up_from (value best : V) (rest : list V) : V :=
  match rest with
  | [] => best
  | m :: rest' => if le value best then best else round_up_from value m rest'
  end.

(** Modelled from the spec: [validators.truncated_discrete_set] is not
    among the sources. The spec has it clamp an out-of-domain input to a
    valid value "rather than rejecting it". Which member an input between
    two members goes to is as the framework's validator has it: the values
    are sorted, the smallest member that is not below the input is
    returned, and the largest member when the input is above them all. *)
Definition truncated_discrete_set (value : V) (values : list V)
  : outcome V :=
  match py_sorted values with
  | [] => Raise IndexError
  | b :: rest => Return (round_up_from value b rest)
  end.

End Numbers.

End Validators.

(* ================================================================== *)
(** ** [pymeasure.instruments.Instrument]: property descriptors        *)
(* ================================================================== *)

Module Instrument.

(** Modelled from the spec: the property builders [Instrument.control],
    [Instrument.setting] and [Instrument.measurement] are not among the
    sources. A descriptor is the "(wire command template, optional query
    template, validator, value domain, optional value map, optional
    pre/post processing function)" of the spec:
      - [V] is the type of the user-facing value,
      - [P] the type [set_process] yields,
      - [W] the type of the value put into [set_command].
    [values] lists the domain (the keys, when the source gives a dict);
    [map_values] is [no_map] for [map_values=False] and [map_dict d] for
    [map_values=True] with the dict [d]. *)
Record control (V P W : Type) : Type := mkControl {
  get_command : option string;
  set_command : option (W -> string);
  validator : V -> list V -> outcome V;
  values : list V;
  set_process : V -> P;
  map_values : P -> outcome W
}.
Arguments mkControl {V P W}.
Arguments get_command {V P W}.
Arguments set_command {V P W}.
Arguments validator {V P W}.
Arguments values {V P W}.
Arguments set_process {V P W}.
Arguments map_values {V P W}.

Definition no_map {W} (w : W) : outcome W := Return w.

(** A Python dict literal, in the order it is written. *)
Definition dict (K W : Type) : Type := list (K * W).

Definition keys {K W} (d : dict K W) : list K := map fst d.

(** [d[k]]. *)
Fixpoint getitem {K W} `{PyEq K} (d : dict K W) (k : K) : outcome W :=
  match d with
  | [] => Raise KeyError
  | (k', w) :: rest => if py_eqb k k' then Return w else getitem rest k
  end.

Definition map_dict {K W} `{PyEq K} (d : dict K W) (k : K) : outcome W :=
  getitem d k.

(** Modelled from the spec: the setter a descriptor generates. Validation
    comes first and raises "before any wire write occurs"; the validated
    value is processed, mapped to its wire value, put into the command
    template and written, "one write" per access. *)
Definition fset {S V P W} (c : control V P W) (value : V) : M S unit :=
  match set_command c with
  | None => raise LookupError
  | Some template =>
      v <- lift (validator c value (values c)) ;;
      w <- lift (map_values c (set_process c v)) ;;
      write (template w)
  end.

(** [Instrument.ask]: one write, then one read. *)
Definition ask {S} (command : string) : M S string :=
  write command ;;; read.

(** Modelled from the spec: the getter a descriptor generates, "one write
    (and for queries, one subsequent read)". It yields the reply as the
    device sent it; the conversion of the reply ([get_process]) is given
    with the property where it is needed. *)
Definition fget {S V P W} (c : control V P W) : M S string :=
  match get_command c with
  | None => raise LookupError
  | Some query => ask query
  end.

End Instrument.

Import Validators Instrument.

(* ================================================================== *)
(** ** [keithley705.py]                                                *)
(* ================================================================== *)

Module Keithley705.

(** The attributes of an instance. *)
Record t : Type := mkT { channels : list Z }.

Definition number_of_poles : control Z Z Z :=
  mkControl None (Some (percent_d "A" 0 "X"))
            strict_discrete_set [0; 1; 2; 4]
            (fun v => v) no_map.

Definition display_channel : control Z Z Z :=
  mkControl None (Some (percent_d "B" 0 "X"))
            no_validator []
            (fun v => v) no_map.

Definition display_mode_values : dict string Z :=
  [("channel", 0); ("interval", 1); ("time", 2); ("date", 3);
   ("message", 4)].

Definition display_mode : control string string Z :=
  mkControl None (Some (percent_d "D" 0 "X"))
            strict_discrete_set (keys display_mode_values)
            (fun v => v) (map_dict display_mode_values).

Definition date_format_values : dict string Z :=
  [("American", 0); ("International", 1)].

Definition date_format : control string string Z :=
  mkControl None (Some (percent_d "E" 0 "X"))
            strict_discrete_set (keys date_format_values)
            (fun v => v) (map_dict date_format_values).

Definition first_channel : control Z Z Z :=
  mkControl None (Some (percent_d "F" 0 "X"))
            no_validator []
            (fun v => v) no_map.

Definition last_channel : control Z Z Z :=
  mkControl None (Some (percent_d "L" 0 "X"))
            no_validator []
            (fun v => v) no_map.

(** [reset]: open all channels and display the first. *)
Definition reset : M t unit := write "RX".

Definition open_channel (channel : Z) : M t unit :=
  write (percent_d "N" 0 "X" channel).

Definition close_channel (channel : Z) : M t unit :=
  write (percent_d "C" 0 "X" channel).

(** [exclusive_close]: close the selected channel and open all others. *)
Definition exclusive_close (channel : Z) : M t unit :=
  self <- get_self ;;
  for_each (channels self)
           (fun c => if negb (c =? channel) then open_channel c
                     else ret tt) ;;;
  close_channel channel.

(** [__init__]: [self.channels = tuple(range(1, 21))], then [reset()]. *)
Definition init (tr : io) : outcome unit * t * io :=
  reset (mkT (range 1 21)) tr.

End Keithley705.

(* ================================================================== *)
(** ** [kusg245_250a.py]                                               *)
(* ================================================================== *)

Module Kusg245_250A.

(** The attributes of an instance. *)
Record t : Type := mkT {
  _power_limit : number;
  power_setpoint_values : list number
}.

(** [__init__]: the assertion [0 < power_limit <= 250] on the number given,
    then the two attributes. Nothing is written to the device. *)
Definition init (power_limit : number) (tr : io) : outcome t * io :=
  if lt (Integer 0) power_limit && le power_limit (Integer 250)
  then (Return (mkT power_limit [Integer 0; power_limit]), tr)
  else (Raise AssertionError, tr).

(** *** Measurements *)

Definition version : M t string := ask "v".
Definition voltage_5v : M t string := ask "5".
Definition voltage_32v : M t string := ask "8".
Definition power_forward : M t string := ask "6".
Definition power_reverse : M t string := ask "7".
Definition temperature : M t string := ask "T".

(** *** Controls *)

(** [lambda v: {True: on, False: off}[v]], for a [v] that passed
    [strict_discrete_set] and so equals [True] or [False]. *)
Definition on_off (on off : string) (v : object) : string :=
  if py_eqb v (Bool true) then on else off.

Definition external_enabled : control object string string :=
  mkControl (Some "r?") (Some (percent_s "" ""))
            strict_discrete_set [Bool false; Bool true]
            (on_off "R" "r") no_map.

Definition bias_enabled : control object string string :=
  mkControl (Some "x?") (Some (percent_s "" ""))
            strict_discrete_set [Bool false; Bool true]
            (on_off "X" "x") no_map.

Definition rf_enabled : control object string string :=
  mkControl (Some "o?") (Some (percent_s "" ""))
            strict_discrete_set [Bool false; Bool true]
            (on_off "O" "o") no_map.

Definition pulse_mode_enabled : control object string string :=
  mkControl (Some "p?") (Some (percent_s "" ""))
            strict_discrete_set [Bool false; Bool true]
            (on_off "P" "p") no_map.

Definition freq_steps_fine_enabled_values : dict object Z :=
  [(Bool false, 0); (Bool true, 1)].

Definition freq_steps_fine_enabled : control object object Z :=
  mkControl (Some "fm?") (Some (percent_d "fm" 0 ""))
            strict_discrete_set (keys freq_steps_fine_enabled_values)
            (fun v => v) (map_dict freq_steps_fine_enabled_values).

Definition frequency_coarse : control Z Z Z :=
  mkControl (Some "f?") (Some (percent_d "f" 4 ""))
            truncated_range [2400; 2500]
            (fun v => v) no_map.

(** [set_process=lambda v: round(v, -1)]. *)
Definition frequency_fine : control Z Z Z :=
  mkControl (Some "f?") (Some (percent_d "f" 7 ""))
            truncated_range [2400000; 2500000]
            (fun v => round_int v (-1)) no_map.

(** [dynamic=True]: the range is the attribute [power_setpoint_values] of
    the instance, which [__init__] sets; [[0, 250]] is only the default of
    the declaration. *)
Definition power_setpoint (self : t) : control number number number :=
  mkControl (Some "A?") (Some (percent_d_number "A" 3 ""))
            truncated_range (power_setpoint_values self)
            (fun v => v) no_map.

(** [lambda v: round(2 * v, -1) / 2]: the true division gives a float,
    which is exact here (half of an integer). *)
Definition half_round_tens (v : Z) : Q :=
  (inject_Z (round_int (2 * v) (-1)) / 2)%Q.

Definition pulse_width : control Z Q Q :=
  mkControl (Some "C?") (Some (percent_d_float "C" 4 ""))
            truncated_range [10; 1000]
            half_round_tens no_map.

Definition off_time : control Z Q Q :=
  mkControl (Some "c?") (Some (percent_d_float "c" 4 ""))
            truncated_range [10; 1000]
            half_round_tens no_map.

(** [set_process=lambda v: round(v / 360 * 256)] and
    [get_process=lambda v: v / 256 * 360]. The phase is a float; it is
    taken as the rational it denotes and the two products as exact. *)
Definition phase_shift_set_process (v : Q) : Z :=
  round_float (v / 360 * 256)%Q.

Definition phase_shift_get_process (v : Q) : Q := (v / 256 * 360)%Q.

Definition phase_shift : control Q Z Z :=
  mkControl (Some "H?") (Some (percent_d "H" 3 ""))
            truncated_range [0%Q; 358.6%Q]
            phase_shift_set_process no_map.

Definition reflection_limit_values : dict Z Z :=
  [(0, 0); (100, 1); (150, 2); (180, 3); (200, 4); (230, 5)].

Definition reflection_limit : control Z Z Z :=
  mkControl (Some "B?") (Some (percent_d "B" 0 ""))
            truncated_discrete_set (keys reflection_limit_values)
            (fun v => v) (map_dict reflection_limit_values).

(** *** Methods *)

Definition tune (power : number) : M t unit :=
  self <- get_self ;;
  power' <- lift (truncated_range power [Integer 0; _power_limit self]) ;;
  command <- lift (fstring_d "b" 3 power') ;;
  write command.

Definition clear_VSWR_error : M t unit := write "z".

Definition store_settings : M t unit := write "SE".

(** Safe shut-down: disable RF output, then deactivate biasing. *)
Definition shutdown : M t unit :=
  fset rf_enabled (Bool false) ;;;
  fset bias_enabled (Bool false).

(** Safe turn-on: activate biasing, wait, then enable RF output. *)
Definition turn_on : M t unit :=
  fset bias_enabled (Bool true) ;;;
  sleep 0.500 ;;;
  fset rf_enabled (Bool true).

(** The setter of [power_setpoint], a dynamic property. *)
Definition set_power_setpoint (value : number) : M t unit :=
  self <- get_self ;;
  fset (power_setpoint self) value.

(** *** Every access the class offers *)

Inductive call : Type :=
| get_version | get_voltage_5v | get_voltage_32v
| get_power_forward | get_power_reverse | get_temperature
| get_external_enabled | set_external_enabled (v : object)
| get_bias_enabled | set_bias_enabled (v : object)
| get_rf_enabled | set_rf_enabled (v : object)
| get_pulse_mode_enabled | set_pulse_mode_enabled (v : object)
| get_freq_steps_fine_enabled | set_freq_steps_fine_enabled (v : object)
| get_frequency_coarse | set_frequency_coarse (v : Z)
| get_frequency_fine | set_frequency_fine (v : Z)
| get_power_setpoint | set_power_setpoint' (v : number)
| get_pulse_width | set_pulse_width (v : Z)
| get_off_time | set_off_time (v : Z)
| get_phase_shift | set_phase_shift (v : Q)
| get_reflection_limit | set_reflection_limit (v : Z)
| call_tune (power : number)
| call_clear_VSWR_error
| call_store_settings
| call_shutdown
| call_turn_on.

Definition discard {A} (m : M t A) : M t unit := m ;;; ret tt.

Definition perform (c : call) : M t unit :=
  match c with
  | get_version => discard version
  | get_voltage_5v => discard voltage_5v
  | get_voltage_32v => discard voltage_32v
  | get_power_forward => discard power_forward
  | get_power_reverse => discard power_reverse
  | get_temperature => discard temperature
  | get_external_enabled => discard (fget external_enabled)
  | set_external_enabled v => fset external_enabled v
  | get_bias_enabled => discard (fget bias_enabled)
  | set_bias_enabled v => fset bias_enabled v
  | get_rf_enabled => discard (fget rf_enabled)
  | set_rf_enabled v => fset rf_enabled v
  | get_pulse_mode_enabled => discard (fget pulse_mode_enabled)
  | set_pulse_mode_enabled v => fset pulse_mode_enabled v
  | get_freq_steps_fine_enabled => discard (fget freq_steps_fine_enabled)
  | set_freq_steps_fine_enabled v => fset freq_steps_fine_enabled v
  | get_frequency_coarse => discard (fget frequency_coarse)
  | set_frequency_coarse v => fset frequency_coarse v
  | get_frequency_fine => discard (fget frequency_fine)
  | set_frequency_fine v => fset frequency_fine v
  | get_power_setpoint =>
      self <- get_self ;; discard (fget (power_setpoint self))
  | set_power_setpoint' v => set_power_setpoint v
  | get_pulse_width => discard (fget pulse_width)
  | set_pulse_width v => fset pulse_width v
  | get_off_time => discard (fget off_time)
  | set_off_time v => fset off_time v
  | get_phase_shift => discard (fget phase_shift)
  | set_phase_shift v => fset phase_shift v
  | get_reflection_limit => discard (fget reflection_limit)
  | set_reflection_limit v => fset reflection_limit v
  | call_tune power => tune power
  | call_clear_VSWR_error => clear_VSWR_error
  | call_store_settings => store_settings
  | call_shutdown => shutdown
  | call_turn_on => turn_on
  end.

End Kusg245_250A.

(* ================================================================== *)
(** ** Notions the properties are stated with                          *)
(* ================================================================== *)

(** The transport after some more events. *)
Definition written (tr : io) (events : list event) : io :=
  mkIO (wire tr ++ events) (pending tr).

(** [s] is a numeral of exactly [n] decimal digits that denotes [value]. *)
Definition numeral (n : nat) (value : Z) (s : string) : Prop :=
  String.length s = n /\ decimal_value s = Some value.

(** The same, as a check. *)
Definition numeralb (n : nat) (value : Z) (s : string) : bool :=
  Nat.eqb (String.length s) n
  && match decimal_value s with
     | Some x => x =? value
     | None => false
     end.

(** [w] is a multiple of [step], and no multiple of [step] is nearer to
    [v]. *)
Definition nearest_multiple (step v w : Z) : Prop :=
  (step | w) /\ forall m, (step | m) -> Z.abs (w - v) <= Z.abs (m - v).

(** [v] brought into [[lo, hi]]: [lo] from below, [hi] from above, [v]
    itself from inside. *)
Definition clamped (lo hi v w : Z) : Prop :=
  (v < lo -> w = lo) /\ (hi < v -> w = hi) /\ (lo <= v <= hi -> w = v).

(** What the amplifier has been told: the bias and RF switches, as the
    commands [X]/[x] and [O]/[o] set them. *)
Module Amplifier.

Record state : Type := mkState { bias : bool; rf : bool }.

Definition obey (s : state) (e : event) : state :=
  match e with
  | Write command =>
      if (command =? "X")%string then mkState true (rf s)
      else if (command =? "x")%string then mkState false (rf s)
      else if (command =? "O")%string then mkState (bias s) true
      else if (command =? "o")%string then mkState (bias s) false
      else s
  | _ => s
  end.

(** RF is not on while the bias is off. *)
Definition safe (s : state) : bool := implb (rf s) (bias s).

(** The states the amplifier goes through, one per event. *)
Fixpoint states (s : state) (events : list event) : list state :=
  match events with
  | [] => []
  | e :: rest => obey s e :: states (obey s e) rest
  end.

End Amplifier.

(** The relays of the scanner as the commands set them: [RX] opens every
    channel, [N{k}X] opens channel [k], [C{k}X] closes it (the docstrings of
    [reset], [open_channel] and [close_channel]). A state tells of each
    channel whether it is closed. *)
Module Scanner.

Definition state : Type := Z -> bool.

Definition obey (s : state) (e : event) : state :=
  match e with
  | Write command =>
      fun k =>
        if (command =? "RX")%string then false
        else if (command =? percent_d "N" 0 "X" k)%string then false
        else if (command =? percent_d "C" 0 "X" k)%string then true
        else s k
  | _ => s
  end.

Definition run (s : state) (events : list event) : state :=
  fold_left obey events s.

End Scanner.

(** The method [m] returns, leaves [self] alone and writes the one command
    [letter] followed by [n] decimal digits that denote [value]. *)
Definition writes_numeral {S : Type} (m : M S unit) (self : S) (tr : io)
           (letter : string) (n : nat) (value : Z) : Prop :=
  exists s : string,
    numeral n value s
    /\ m self tr = (Return tt, self, written tr [Write (letter +++ s)]).

(** [turn_on] and [shutdown], to speak of sequences of them. *)
Inductive power_switch : Type := TurnOn | Shutdown.

Definition switch (p : power_switch) : M Kusg245_250A.t unit :=
  match p with
  | TurnOn => Kusg245_250A.turn_on
  | Shutdown => Kusg245_250A.shutdown
  end.

(** The state the amplifier is left in by a sequence of events. *)
Definition left_in (s : Amplifier.state) (events : list event)
  : Amplifier.state :=
  fold_left Amplifier.obey events s.

(** What a sequence of [turn_on] and [shutdown] calls adds to the wire. *)
Definition switched (ps : list power_switch) (self : Kusg245_250A.t)
           (tr : io) : list event :=
  skipn (List.length (wire tr))
        (wire (snd (for_each ps switch self tr))).

(** A sequence of accesses to a generator; one that raises is caught and
    the next one goes on. *)
Fixpoint perform_all (calls : list Kusg245_250A.call)
         (self : Kusg245_250A.t) (tr : io) : Kusg245_250A.t * io :=
  match calls with
  | [] => (self, tr)
  | c :: rest =>
      match Kusg245_250A.perform c self tr with
      | (_, self', tr') => perform_all rest self' tr'
      end
  end.

(** A method that gives [self] back with the attributes it was given,
    whether it returns or raises. *)
Definition keeps_self {S A : Type} (m : M S A) : Prop :=
  forall (self : S) (tr : io), snd (fst (m self tr)) = self.

Section Domains.
Context {V P W : Type}.

(** The property is declared with [validator=strict_discrete_set]. *)
Definition strict `{PyEq V} (c : control V P W) : Prop :=
  validator c = strict_discrete_set.

(** The property is declared with [validator=truncated_range] or with
    [validator=truncated_discrete_set]. *)
Definition truncating `{PyNumber V} (c : control V P W) : Prop :=
  validator c = truncated_range \/ validator c = truncated_discrete_set.

(** A strict property: a value outside [values] makes the setter raise and
    leaves the attributes and the transport as they were. *)
Definition rejects (S : Type) `{PyEq V} (c : control V P W) : Prop :=
  forall (v : V) (self : S) (tr : io),
    py_in v (values c) = false ->
    fset c v self tr = (Raise ValueError, self, tr).

Context `{PyNumber V}.

(** [v'] is valid and no valid value is nearer to [v]. *)
Definition nearest_valid (valid : V -> Prop) (v v' : V) : Prop :=
  valid v' /\ forall m, valid m -> (dist v v' <= dist v m)%Q.

(** A truncating property: whatever the input, the setter returns after
    one write, of the command made from the valid value nearest to the
    input. *)
Definition clamps (S : Type) (valid : V -> Prop) (c : control V P W)
  : Prop :=
  forall (v : V) (self : S) (tr : io),
  exists (v' : V) (template : W -> string) (w : W),
    nearest_valid valid v v'
    /\ (valid v -> v' = v)
    /\ set_command c = Some template
    /\ map_values c (set_process c v') = Return w
    /\ fset c v self tr = (Return tt, self, written tr [Write (template w)]).
End Domains.

(** A property on integers that truncates to a member of a set: whatever
    the input, the setter returns after one write, of the command made from
    the smallest member that is not below the input, or from the largest
    member when the input is above them all. *)
Definition rounds_up (S : Type) {P W : Type} (members : list Z)
           (c : control Z P W) : Prop :=
  forall (v : Z) (self : S) (tr : io),
  exists (v' : Z) (template : W -> string) (w : W),
    In v' members
    /\ (forall m, In m members -> v <= m -> v <= v' <= m)
    /\ ((forall m, In m members -> m < v) ->
        forall m, In m members -> m <= v')
    /\ set_command c = Some template
    /\ map_values c (set_process c v') = Return w
    /\ fset c v self tr = (Return tt, self, written tr [Write (template w)]).

(* ================================================================== *)
(** ** Running setters and loops                                       *)
(* ================================================================== *)

Lemma written_nil (tr : io) : written tr [] = tr.
Proof. destruct tr; unfold written; simpl; now rewrite app_nil_r. Qed.

Lemma written_written (tr : io) (xs ys : list event) :
  written (written tr xs) ys = written tr (xs ++ ys).
Proof. unfold written; simpl; now rewrite app_assoc. Qed.

Section Setters.
Context {S V P W : Type}.
Variable c : control V P W.

Lemma fset_returns (template : W -> string) (v v' : V) (w : W)
      (self : S) (tr : io) :
  set_command c = Some template ->
  validator c v (values c) = Return v' ->
  map_values c (set_process c v') = Return w ->
  fset c v self tr = (Return tt, self, written tr [Write (template w)]).
Proof.
  intros Hc Hv Hm. unfold fset, bind. rewrite Hc, Hv. simpl.
  rewrite Hm. reflexivity.
Qed.

Lemma fset_raises (v : V) (e : exn) (self : S) (tr : io) :
  validator c v (values c) = Raise e ->
  exists e', fset c v self tr = (Raise e', self, tr).
Proof.
  intros Hv. unfold fset, bind.
  destruct (set_command c).
  - rewrite Hv. now exists e.
  - now exists LookupError.
Qed.

(** Whatever a setter does, it leaves the attributes of [self] alone. *)
Lemma fset_keeps_self (v : V) (self : S) (tr : io) :
  snd (fst (fset c v self tr)) = self.
Proof.
  unfold fset, bind.
  destruct (set_command c); [|reflexivity].
  destruct (validator c v (values c)); simpl; [|reflexivity].
  destruct (map_values c (set_process c a)); reflexivity.
Qed.

Lemma fget_keeps_self (self : S) (tr : io) :
  snd (fst (fget c self tr)) = self.
Proof.
  unfold fget, ask, bind, read.
  destruct (get_command c); [|reflexivity]. simpl.
  destruct (pending tr); reflexivity.
Qed.
End Setters.

(** A loop whose body writes one command for the elements it keeps and does
    nothing for the others. *)
Lemma for_each_write {S A : Type} (keep : A -> bool) (command : A -> string)
      (xs : list A) (self : S) (tr : io) :
  for_each xs (fun x => if keep x then write (command x) else ret tt) self tr
  = (Return tt, self,
     written tr (map (fun x => Write (command x)) (filter keep xs))).
Proof.
  revert tr. induction xs as [|x xs IH]; intros tr; simpl.
  - now rewrite written_nil.
  - unfold bind. destruct (keep x); simpl.
    + unfold write, emit. fold (written tr [Write (command x)]).
      rewrite IH, written_written. reflexivity.
    + unfold ret. apply IH.
Qed.

(** *** [range] *)

Lemma In_range_from (a : Z) (n : nat) (k : Z) :
  In k (range_from a n) <-> a <= k < a + Z.of_nat n.
Proof.
  revert a. induction n as [|n IH]; intros a; simpl range_from.
  - simpl. lia.
  - simpl In. rewrite IH. lia.
Qed.

Lemma range_from_ascending (a : Z) (n : nat) :
  StronglySorted Z.lt (range_from a n).
Proof.
  revert a. induction n as [|n IH]; intros a; simpl; constructor.
  - apply IH.
  - apply Forall_forall. intros k Hk. apply In_range_from in Hk. lia.
Qed.

Lemma filter_ascending (keep : Z -> bool) (xs : list Z) :
  StronglySorted Z.lt xs -> StronglySorted Z.lt (filter keep xs).
Proof.
  induction 1 as [|x xs Hs IH Hx]; simpl; [constructor|].
  destruct (keep x); [constructor|]; auto.
  apply Forall_forall. intros k Hk. apply filter_In in Hk.
  rewrite Forall_forall in Hx. apply Hx, Hk.
Qed.

Lemma filter_keeps_all {A} (keep : A -> bool) (xs : list A) :
  (forall x, In x xs -> keep x = true) -> filter keep xs = xs.
Proof.
  induction xs as [|x xs IH]; intros Hall; simpl; [reflexivity|].
  rewrite Hall by now left. f_equal. apply IH. intros; apply Hall; now right.
Qed.

(** A check on every integer of [range a b] holds of each of them. *)
Lemma forallb_range (check : Z -> bool) (a b : Z) :
  forallb check (range a b) = true ->
  forall k, a <= k < b -> check k = true.
Proof.
  intros Hall k Hk. rewrite forallb_forall in Hall.
  apply Hall. unfold range. apply In_range_from. lia.
Qed.

(* ================================================================== *)
(** ** The validators                                                  *)
(* ================================================================== *)

Lemma Qle_bool_inject_Z (a b : Z) :
  Qle_bool (inject_Z a) (inject_Z b) = (a <=? b).
Proof. unfold Qle_bool; simpl. now rewrite !Z.mul_1_r. Qed.

Lemma le_Z (a b : Z) : le a b = (a <=? b).
Proof. apply Qle_bool_inject_Z. Qed.

Lemma lt_Z (a b : Z) : lt a b = (a <? b).
Proof.
  unfold lt; simpl. rewrite Qle_bool_inject_Z.
  destruct (Z.leb_spec b a), (Z.ltb_spec a b); simpl; auto; lia.
Qed.

Lemma dist_Z (a b : Z) : (dist a b == inject_Z (Z.abs (a - b)))%Q.
Proof. unfold dist, Qeq; simpl. lia. Qed.

Lemma dist_le_Z (v a b : Z) :
  (dist v a <= dist v b)%Q <-> Z.abs (v - a) <= Z.abs (v - b).
Proof. rewrite !dist_Z, <- Zle_Qle. reflexivity. Qed.

Lemma dist_nonneg {V} `{PyNumber V} (a b : V) : (0 <= dist a b)%Q.
Proof. apply Qabs_nonneg. Qed.

Lemma dist_self {V} `{PyNumber V} (a : V) : (dist a a == 0)%Q.
Proof.
  unfold dist. setoid_replace (num a - num a)%Q with 0%Q by ring. reflexivity.
Qed.

(** [truncated_range] on integers, for a range given as [[lo, hi]]. *)
Lemma truncated_range_Z (lo hi v : Z) :
  lo <= hi ->
  truncated_range v [lo; hi] = Return (Z.max lo (Z.min hi v)).
Proof.
  intros Hle. unfold truncated_range. cbn [py_min_from py_max_from].
  rewrite !lt_Z.
  destruct (Z.ltb_spec hi lo); [lia|].
  destruct (Z.ltb_spec lo hi); rewrite !le_Z.
  - destruct (Z.leb_spec lo v), (Z.leb_spec v hi), (Z.ltb_spec hi v);
      cbn [andb]; f_equal; lia.
  - destruct (Z.leb_spec lo v), (Z.leb_spec v lo), (Z.ltb_spec lo v);
      cbn [andb]; f_equal; lia.
Qed.

(** [truncated_range] on numbers that are integers. *)
Lemma truncated_range_Integer (lo hi v : Z) :
  lo <= hi ->
  truncated_range (Integer v) [Integer lo; Integer hi]
  = Return (Integer (Z.max lo (Z.min hi v))).
Proof.
  intros Hle. unfold truncated_range. cbn [py_min_from py_max_from].
  unfold lt, le. cbn [num PyNumber_number]. rewrite !Qle_bool_inject_Z.
  destruct (Z.leb_spec lo hi); [|lia]. cbn [negb].
  destruct (Z.leb_spec hi lo); cbn [negb];
    cbn [num PyNumber_number]; rewrite !Qle_bool_inject_Z.
  - destruct (Z.leb_spec lo v), (Z.leb_spec v lo);
      cbn [andb negb]; do 2 f_equal; lia.
  - destruct (Z.leb_spec lo v), (Z.leb_spec v hi);
      cbn [andb negb]; do 2 f_equal; lia.
Qed.

(** Sorting leaves an ascending list of integers as it is. *)
Lemma py_sorted_ascending_Z (values : list Z) :
  StronglySorted Z.le values -> py_sorted values = values.
Proof.
  induction 1 as [|x rest Hs IH Hx]; cbn [py_sorted]; [reflexivity|].
  rewrite IH. destruct rest as [|y rest]; [reflexivity|].
  cbn [insert_sorted]. rewrite le_Z.
  apply Forall_inv in Hx. destruct (Z.leb_spec x y); [reflexivity | lia].
Qed.

(** The member [round_up_from] picks in an ascending list of integers. *)
Lemma round_up_from_Z (v b : Z) (rest : list Z) :
  StronglySorted Z.le (b :: rest) ->
  In (round_up_from v b rest) (b :: rest)
  /\ (forall m, In m (b :: rest) -> v <= m ->
                v <= round_up_from v b rest <= m)
  /\ ((forall m, In m (b :: rest) -> m < v) ->
      forall m, In m (b :: rest) -> m <= round_up_from v b rest).
Proof.
  revert b. induction rest as [|m0 rest IH]; intros b Hs.
  - cbn [round_up_from]. split; [now left|]. split.
    + intros m [<-|[]] Hm. lia.
    + intros _ m [<-|[]]. lia.
  - cbn [round_up_from]. rewrite le_Z.
    apply StronglySorted_inv in Hs. destruct Hs as [Hs Hb].
    rewrite Forall_forall in Hb.
    destruct (Z.leb_spec v b) as [Hvb|Hvb].
    + split; [now left|]. split.
      * intros m [<-|HIn] Hm; [lia|]. specialize (Hb m HIn). lia.
      * intros Hall. specialize (Hall b ltac:(now left)). lia.
    + destruct (IH m0 Hs) as [HIn [Hup Htop]].
      split; [now right|]. split.
      * intros m [<-|Hm] Hvm; [lia|]. now apply Hup.
      * intros Hall m [<-|Hm].
        -- specialize (Hb m0 ltac:(now left)).
           assert (m0 <= round_up_from v m0 rest).
           { apply Htop; [|now left]. intros m' Hm'. apply Hall. now right. }
           lia.
        -- apply Htop; [|exact Hm]. intros m' Hm'. apply Hall. now right.
Qed.

(** [truncated_discrete_set] on integers given in ascending order: a
    member; the smallest one that is not below the input; the largest one
    when the input is above them all. *)
Lemma truncated_discrete_set_Z (v b : Z) (rest : list Z) :
  StronglySorted Z.le (b :: rest) ->
  exists m,
    truncated_discrete_set v (b :: rest) = Return m
    /\ In m (b :: rest)
    /\ (forall m', In m' (b :: rest) -> v <= m' -> v <= m <= m')
    /\ ((forall m', In m' (b :: rest) -> m' < v) ->
        forall m', In m' (b :: rest) -> m' <= m).
Proof.
  intros Hs. exists (round_up_from v b rest).
  unfold truncated_discrete_set. rewrite (py_sorted_ascending_Z _ Hs).
  split; [reflexivity|]. now apply round_up_from_Z.
Qed.

(** [value in values] on integers and on strings. *)
Lemma py_in_Z (v : Z) (values : list Z) : py_in v values = true <-> In v values.
Proof.
  unfold py_in. rewrite existsb_exists. split.
  - intros [x [HIn E]]. apply Z.eqb_eq in E. now subst.
  - intros HIn. exists v. split; [exact HIn | apply Z.eqb_refl].
Qed.

Lemma py_in_string (v : string) (values : list string) :
  py_in v values = true <-> In v values.
Proof.
  unfold py_in. rewrite existsb_exists. split.
  - intros [x [HIn E]]. apply String.eqb_eq in E. now subst.
  - intros HIn. exists v. split; [exact HIn | apply String.eqb_refl].
Qed.

(* ================================================================== *)
(** ** Keithley 705: channel switching                                 *)
(* ================================================================== *)

Lemma Keithley705_init_channels (tr0 tr1 : io) (self : Keithley705.t) :
  Keithley705.init tr0 = (Return tt, self, tr1) ->
  Keithley705.channels self = range 1 21.
Proof.
  unfold Keithley705.init, Keithley705.reset, write, emit.
  intros E. injection E as <- _. reflexivity.
Qed.

(** What [exclusive_close] writes, whatever the channel. *)
Lemma exclusive_close_run (c : Z) (self : Keithley705.t) (tr : io) :
  Keithley705.exclusive_close c self tr
  = (Return tt, self,
     written tr
       (map (fun k => Write (percent_d "N" 0 "X" k))
            (filter (fun k => negb (k =? c)) (Keithley705.channels self))
        ++ [Write (percent_d "C" 0 "X" c)])).
Proof.
  unfold Keithley705.exclusive_close, Keithley705.open_channel.
  unfold bind at 1. unfold get_self. unfold bind.
  rewrite (for_each_write (fun k => negb (k =? c)) (percent_d "N" 0 "X")).
  unfold Keithley705.close_channel, write, emit.
  fold (written
          (written tr
             (map (fun k => Write (percent_d "N" 0 "X" k))
                  (filter (fun k => negb (k =? c))
                          (Keithley705.channels self))))
          [Write (percent_d "C" 0 "X" c)]).
  now rewrite written_written.
Qed.

(** C5. For every channel [c] of 1..20, [exclusive_close c] on a scanner as
    [__init__] leaves it writes 19 open commands [N{k}X], one for each
    channel [k] of 1..20 other than [c], in ascending order of [k], then the
    single close command [C{c}X], and nothing else; it returns normally. *)
Theorem exclusive_close_opens_the_others_then_closes
        (c : Z) (tr0 tr1 tr : io) (self : Keithley705.t) :
  Keithley705.init tr0 = (Return tt, self, tr1) ->
  1 <= c <= 20 ->
  exists opens : list Z,
    Keithley705.exclusive_close c self tr
    = (Return tt, self,
       written tr (map (fun k => Write (percent_d "N" 0 "X" k)) opens
                   ++ [Write (percent_d "C" 0 "X" c)]))
    /\ List.length opens = 19%nat
    /\ (forall k, In k opens <-> 1 <= k <= 20 /\ k <> c)
    /\ StronglySorted Z.lt opens.
Proof.
  intros Hinit Hc.
  exists (filter (fun k => negb (k =? c)) (range 1 21)).
  rewrite exclusive_close_run, (Keithley705_init_channels _ _ _ Hinit).
  split; [reflexivity|]. split; [|split].
  - apply Nat.eqb_eq.
    apply (forallb_range
             (fun c => Nat.eqb (List.length (filter (fun k => negb (k =? c))
                                                    (range 1 21))) 19)
             1 21); [reflexivity | lia].
  - intros k. rewrite filter_In. unfold range. rewrite In_range_from.
    rewrite negb_true_iff, Z.eqb_neq. simpl. lia.
  - apply filter_ascending, range_from_ascending.
Qed.

Lemma exclusive_close_opens_the_others_then_closes_witness :
  exists opens : list Z,
    Keithley705.exclusive_close 3 (Keithley705.mkT (range 1 21)) (mkIO [] [])
    = (Return tt, Keithley705.mkT (range 1 21),
       written (mkIO [] [])
               (map (fun k => Write (percent_d "N" 0 "X" k)) opens
                ++ [Write (percent_d "C" 0 "X" 3)]))
    /\ List.length opens = 19%nat
    /\ (forall k, In k opens <-> 1 <= k <= 20 /\ k <> 3)
    /\ StronglySorted Z.lt opens.
Proof.
  apply (exclusive_close_opens_the_others_then_closes
           3 (mkIO [] []) (mkIO [Write "RX"] [])).
  - reflexivity.
  - lia.
Defined.

(** C9. For every integer [c] outside 1..20, [exclusive_close c] does not
    raise: it writes the open command [N{k}X] for all twenty channels [k] of
    1..20, in ascending order, and then the close command [C{c}X] for [c] as
    it was given. *)
Theorem exclusive_close_accepts_any_channel
        (c : Z) (tr0 tr1 tr : io) (self : Keithley705.t) :
  Keithley705.init tr0 = (Return tt, self, tr1) ->
  c < 1 \/ 20 < c ->
  Keithley705.exclusive_close c self tr
  = (Return tt, self,
     written tr
       (map (fun k => Write (percent_d "N" 0 "X" k))
            [1; 2; 3; 4; 5; 6; 7; 8; 9; 10;
             11; 12; 13; 14; 15; 16; 17; 18; 19; 20]
        ++ [Write (percent_d "C" 0 "X" c)])).
Proof.
  intros Hinit Hc.
  rewrite exclusive_close_run, (Keithley705_init_channels _ _ _ Hinit).
  rewrite filter_keeps_all; [reflexivity|].
  intros k Hk. unfold range in Hk. apply In_range_from in Hk. simpl in Hk.
  apply negb_true_iff, Z.eqb_neq. lia.
Qed.

Lemma exclusive_close_accepts_any_channel_witness :
  Keithley705.exclusive_close (-3) (Keithley705.mkT (range 1 21)) (mkIO [] [])
  = (Return tt, Keithley705.mkT (range 1 21),
     written (mkIO [] [])
       (map (fun k => Write (percent_d "N" 0 "X" k))
            [1; 2; 3; 4; 5; 6; 7; 8; 9; 10;
             11; 12; 13; 14; 15; 16; 17; 18; 19; 20]
        ++ [Write (percent_d "C" 0 "X" (-3))])).
Proof.
  apply (exclusive_close_accepts_any_channel
           (-3) (mkIO [] []) (mkIO [Write "RX"] [])).
  - reflexivity.
  - lia.
Defined.

(* ================================================================== *)
(** ** KU SG 2.45 250 A: reflection limit and power set-point          *)
(* ================================================================== *)

(** What [reflection_limit] makes of an integer: the smallest limit of the
    table that is not below it, the largest limit when it is above them
    all, and that limit's wire code. *)
Lemma reflection_limit_validated (v : Z) :
  exists m code : Z,
    truncated_discrete_set v (keys Kusg245_250A.reflection_limit_values)
    = Return m
    /\ In m [0; 100; 150; 180; 200; 230]
    /\ In (m, code) Kusg245_250A.reflection_limit_values
    /\ map_dict Kusg245_250A.reflection_limit_values m = Return code
    /\ (forall m', In m' [0; 100; 150; 180; 200; 230] -> v <= m' ->
                   v <= m <= m')
    /\ ((forall m', In m' [0; 100; 150; 180; 200; 230] -> m' < v) ->
        forall m', In m' [0; 100; 150; 180; 200; 230] -> m' <= m).
Proof.
  assert (Hs : StronglySorted Z.le [0; 100; 150; 180; 200; 230]).
  { repeat constructor; lia. }
  destruct (truncated_discrete_set_Z v 0 [100; 150; 180; 200; 230] Hs)
    as [m [Hret [HIn [Hup Htop]]]].
  assert (Hcode : exists code,
             In (m, code) Kusg245_250A.reflection_limit_values
             /\ map_dict Kusg245_250A.reflection_limit_values m = Return code).
  { simpl in HIn.
    destruct HIn as [<-|[<-|[<-|[<-|[<-|[<-|[]]]]]]];
      eexists; (split; [|reflexivity]); simpl; tauto. }
  destruct Hcode as [code [Hentry Hmap]].
  exists m, code.
  split; [exact Hret|]. split; [exact HIn|]. split; [exact Hentry|].
  split; [exact Hmap|]. split; [exact Hup | exact Htop].
Qed.

(** C1, as the claim has it, fails: 240 is not one of the six limits, and
    yet the setter returns and writes a command, [B5]. *)
Lemma reflection_limit_240_is_not_rejected :
  ~ In 240 [0; 100; 150; 180; 200; 230]
  /\ fset Kusg245_250A.reflection_limit 240
          (Kusg245_250A.mkT 250 [Integer 0; Integer 250]) (mkIO [] [])
     = (Return tt, Kusg245_250A.mkT 250 [Integer 0; Integer 250],
        mkIO [Write "B5"] []).
Proof.
  split.
  - simpl. intros H. repeat (destruct H as [H|H]; [discriminate H|]). exact H.
  - reflexivity.
Qed.

(** C1, amended. The table of [reflection_limit] pairs the limits 0, 100,
    150, 180, 200, 230 one-to-one with the commands [B0] .. [B5]. The setter
    never raises: for every integer input it writes exactly one command
    [B{code}], where [code] is the wire code of a limit [m] of the table;
    [m] is the input itself when the input is in the table, 0 for an input
    below 0 and 230 for an input above 230. *)
Theorem reflection_limit_truncates_to_a_limit
        (v : Z) (self : Kusg245_250A.t) (tr : io) :
  map (fun entry => (fst entry, percent_d "B" 0 "" (snd entry)))
      Kusg245_250A.reflection_limit_values
  = [(0, "B0"); (100, "B1"); (150, "B2"); (180, "B3"); (200, "B4");
     (230, "B5")]
  /\ exists m code : Z,
      In (m, code) Kusg245_250A.reflection_limit_values
      /\ (In v [0; 100; 150; 180; 200; 230] -> m = v)
      /\ (v <= 0 -> m = 0)
      /\ (230 <= v -> m = 230)
      /\ fset Kusg245_250A.reflection_limit v self tr
         = (Return tt, self, written tr [Write (percent_d "B" 0 "" code)]).
Proof.
  split; [reflexivity|].
  destruct (reflection_limit_validated v)
    as [m [code [Hret [HIn [Hentry [Hmap [Hup Htop]]]]]]].
  exists m, code. repeat split.
  - exact Hentry.
  - intros Hv. specialize (Hup v Hv ltac:(lia)). lia.
  - intros Hv. specialize (Hup 0 ltac:(simpl; tauto) Hv).
    simpl in HIn. destruct HIn as [<-|[<-|[<-|[<-|[<-|[<-|[]]]]]]]; lia.
  - intros Hv. destruct (Z.eq_dec v 230) as [->|Hne].
    + specialize (Hup 230 ltac:(simpl; tauto) ltac:(lia)). lia.
    + assert (H230 : 230 <= m).
      { apply Htop; [|simpl; tauto]. intros m' Hm'. simpl in Hm'.
        destruct Hm' as [<-|[<-|[<-|[<-|[<-|[<-|[]]]]]]]; lia. }
      simpl in HIn. destruct HIn as [<-|[<-|[<-|[<-|[<-|[<-|[]]]]]]]; lia.
  - apply (fset_returns Kusg245_250A.reflection_limit
                        (percent_d "B" 0 "") v m code);
      [reflexivity | exact Hret | exact Hmap].
Qed.

(** What a constructor that returns has checked and set. *)
Lemma Kusg245_250A_init_number (power_limit : number) (tr0 tr1 : io)
      (self : Kusg245_250A.t) :
  Kusg245_250A.init power_limit tr0 = (Return self, tr1) ->
  (0 < num power_limit <= 250)%Q
  /\ self = Kusg245_250A.mkT power_limit [Integer 0; power_limit]
  /\ tr1 = tr0.
Proof.
  unfold Kusg245_250A.init, lt, le.
  change (num (Integer 0)) with 0%Q. change (num (Integer 250)) with 250%Q.
  destruct (Qle_bool (num power_limit) 0) eqn:E0;
    destruct (Qle_bool (num power_limit) 250) eqn:E250;
    cbn [negb andb]; intros E; try discriminate E.
  injection E as <- <-. apply Qle_bool_iff in E250.
  repeat split; try assumption.
  apply Qnot_le_lt. intros Hle. apply Qle_bool_iff in Hle. congruence.
Qed.

Lemma Kusg245_250A_init_returns (power_limit : Z) (tr0 tr1 : io)
      (self : Kusg245_250A.t) :
  Kusg245_250A.init (Integer power_limit) tr0 = (Return self, tr1) ->
  0 < power_limit <= 250
  /\ self = Kusg245_250A.mkT (Integer power_limit)
                             [Integer 0; Integer power_limit]
  /\ tr1 = tr0.
Proof.
  intros Hinit.
  destruct (Kusg245_250A_init_number _ _ _ _ Hinit) as [[Hlo Hhi] [-> ->]].
  cbn [num PyNumber_number] in Hlo, Hhi.
  change 0%Q with (inject_Z 0) in Hlo. change 250%Q with (inject_Z 250) in Hhi.
  rewrite <- Zlt_Qlt in Hlo. rewrite <- Zle_Qle in Hhi.
  repeat split; assumption.
Qed.

(** The setter of [power_setpoint] given an integer, on an instance whose
    range is [[0, limit]] for an integer [limit]. *)
Lemma set_power_setpoint_run (limit v : Z) (self : Kusg245_250A.t) (tr : io) :
  0 <= limit ->
  Kusg245_250A.power_setpoint_values self = [Integer 0; Integer limit] ->
  Kusg245_250A.set_power_setpoint (Integer v) self tr
  = (Return tt, self,
     written tr [Write (percent_d "A" 3 "" (Z.max 0 (Z.min limit v)))]).
Proof.
  intros Hl Hvalues. unfold Kusg245_250A.set_power_setpoint.
  unfold bind at 1. unfold get_self.
  apply (fset_returns (Kusg245_250A.power_setpoint self)
                      (percent_d_number "A" 3 "") (Integer v)
                      (Integer (Z.max 0 (Z.min limit v)))
                      (Integer (Z.max 0 (Z.min limit v))));
    [reflexivity | | reflexivity].
  simpl. rewrite Hvalues. now apply truncated_range_Integer.
Qed.

(** C2, as the claim has it, fails for numbers that are not integers. On a
    generator constructed with the limit 250, the input 50.5 lies in
    [[0, 250]] and yet is not sent unchanged: the template [A%03d] sends it
    as 050. On a generator constructed with the limit 99.5, which the
    constructor accepts, the input 200 is sent as 099, not as the limit. *)
Lemma power_setpoint_float_is_truncated :
  (Kusg245_250A.init (Integer 250) (mkIO [] [])
   = (Return (Kusg245_250A.mkT (Integer 250) [Integer 0; Integer 250]),
      mkIO [] [])
   /\ (0 <= 50.5 <= 250)%Q
   /\ Kusg245_250A.set_power_setpoint
        (Float 50.5)
        (Kusg245_250A.mkT (Integer 250) [Integer 0; Integer 250])
        (mkIO [] [])
      = (Return tt, Kusg245_250A.mkT (Integer 250) [Integer 0; Integer 250],
         mkIO [Write "A050"] []))
  /\ (Kusg245_250A.init (Float 99.5) (mkIO [] [])
      = (Return (Kusg245_250A.mkT (Float 99.5) [Integer 0; Float 99.5]),
         mkIO [] [])
      /\ Kusg245_250A.set_power_setpoint
           (Integer 200)
           (Kusg245_250A.mkT (Float 99.5) [Integer 0; Float 99.5])
           (mkIO [] [])
         = (Return tt, Kusg245_250A.mkT (Float 99.5) [Integer 0; Float 99.5],
            mkIO [Write "A099"] [])).
Proof.
  split; [split; [reflexivity|split; [split; discriminate|reflexivity]]|].
  split; reflexivity.
Qed.

(** C2, amended. On a generator constructed with an integer [power_limit]
    (which the constructor bounds by 250), the setter of [power_setpoint]
    writes, for every integer input [v], the command [A%03d] of [v] clamped
    to [[0, power_limit]]: 0 for [v] below 0, [power_limit] for [v] above
    it, [v] itself otherwise. *)
Theorem power_setpoint_clamps_to_power_limit
        (power_limit v : Z) (tr0 tr1 tr : io) (self : Kusg245_250A.t) :
  Kusg245_250A.init (Integer power_limit) tr0 = (Return self, tr1) ->
  power_limit <= 250
  /\ exists w : Z,
      clamped 0 power_limit v w
      /\ Kusg245_250A.set_power_setpoint (Integer v) self tr
         = (Return tt, self, written tr [Write (percent_d "A" 3 "" w)]).
Proof.
  intros Hinit.
  destruct (Kusg245_250A_init_returns _ _ _ _ Hinit) as [Hl [-> _]].
  split; [lia|].
  exists (Z.max 0 (Z.min power_limit v)). split.
  - unfold clamped. lia.
  - apply set_power_setpoint_run; [lia | reflexivity].
Qed.

Lemma power_setpoint_clamps_to_power_limit_witness :
  100 <= 250
  /\ exists w : Z,
      clamped 0 100 120 w
      /\ Kusg245_250A.set_power_setpoint
           (Integer 120)
           (Kusg245_250A.mkT 100 [Integer 0; Integer 100]) (mkIO [] [])
         = (Return tt, Kusg245_250A.mkT 100 [Integer 0; Integer 100],
            written (mkIO [] []) [Write (percent_d "A" 3 "" w)]).
Proof.
  apply (power_setpoint_clamps_to_power_limit
           100 120 (mkIO [] []) (mkIO [] [])).
  reflexivity.
Defined.

(* ================================================================== *)
(** ** Rounding to tens and to fives; numerals                         *)
(* ================================================================== *)

(** [round(n, -1)] is a multiple of 10 at most 5 away from [n]. *)
Lemma round_int_tens (n : Z) :
  exists q, round_int n (-1) = 10 * q /\ Z.abs (10 * q - n) <= 5.
Proof.
  unfold round_int, divmod_near.
  change (0 <=? -1) with false. change (10 ^ (- -1)) with 10. cbv iota.
  pose proof (Z.div_mod n 10 ltac:(lia)) as Hdm.
  pose proof (Z.mod_pos_bound n 10 ltac:(lia)) as Hr.
  destruct ((10 <? 2 * (n mod 10))
            || ((2 * (n mod 10) =? 10) && Z.odd (n / 10))) eqn:E; simpl snd.
  - exists (n / 10 + 1). split; [lia|].
    apply orb_true_iff in E. destruct E as [E|E].
    + apply Z.ltb_lt in E. lia.
    + apply andb_true_iff in E. destruct E as [E _].
      apply Z.eqb_eq in E. lia.
  - exists (n / 10). split; [lia|].
    apply orb_false_iff in E. destruct E as [E _].
    apply Z.ltb_ge in E. lia.
Qed.

Lemma nearest_multiple_10 (n q : Z) :
  Z.abs (10 * q - n) <= 5 -> nearest_multiple 10 n (10 * q).
Proof.
  intros Hq. split; [now exists q; lia|].
  intros m [k ->]. lia.
Qed.

(** [int()] of half of an even integer. *)
Lemma int_of_float_half (k : Z) :
  int_of_float (inject_Z (2 * k) / 2) = k.
Proof.
  unfold int_of_float.
  assert (E : (inject_Z (2 * k) / 2 == inject_Z k)%Q).
  { rewrite inject_Z_mult. field. }
  destruct (Qle_bool 0 (inject_Z (2 * k) / 2)).
  - rewrite E. apply Qfloor_Z.
  - rewrite E. apply Qceiling_Z.
Qed.

(** [round(2 * v, -1) / 2], converted by [%d], is a multiple of 5 at most 2
    away from the integer [v]. *)
Lemma half_round_tens_fives (v : Z) :
  exists q, int_of_float (Kusg245_250A.half_round_tens v) = 5 * q
            /\ Z.abs (5 * q - v) <= 2.
Proof.
  unfold Kusg245_250A.half_round_tens.
  destruct (round_int_tens (2 * v)) as [q [-> Hq]].
  exists q. replace (10 * q) with (2 * (5 * q)) by lia.
  rewrite int_of_float_half. split; [reflexivity | lia].
Qed.

Lemma nearest_multiple_5 (v q : Z) :
  Z.abs (5 * q - v) <= 2 -> nearest_multiple 5 v (5 * q).
Proof.
  intros Hq. split; [now exists q; lia|].
  intros m [k ->]. lia.
Qed.

(** *** Numerals *)

Lemma numeralb_numeral (n : nat) (value : Z) (s : string) :
  numeralb n value s = true -> numeral n value s.
Proof.
  unfold numeralb, numeral. intros E.
  apply andb_true_iff in E. destruct E as [El Ev].
  apply Nat.eqb_eq in El. split; [exact El|].
  destruct (decimal_value s); [|discriminate Ev].
  apply Z.eqb_eq in Ev. now subst.
Qed.

Lemma append_empty_r (s : string) : s +++ "" = s.
Proof. induction s as [|c s IH]; simpl; [reflexivity | now rewrite IH]. Qed.

Lemma percent_d_no_suffix (pre : string) (width : nat) (z : Z) :
  percent_d pre width "" z = pre +++ zfill width z.
Proof. unfold percent_d. now rewrite append_empty_r. Qed.

(** Every multiple of 10 of [[2400000, 2500000]] has a 7-digit [%07d]. *)
Lemma zfill_7_fine (k : Z) :
  240000 <= k <= 250000 -> numeral 7 (10 * k) (zfill 7 (10 * k)).
Proof.
  intros Hk. apply numeralb_numeral.
  apply (forallb_range
           (fun k => numeralb 7 (10 * k) (zfill 7 (10 * k))) 240000 250001);
    [vm_compute; reflexivity | lia].
Qed.

(* ================================================================== *)
(** ** KU SG 2.45 250 A: fine frequency, pulse width and off time      *)
(* ================================================================== *)

(** C8. For every integer input [v], the setter of [frequency_fine] writes
    [f] followed by exactly 7 digits. The number [n] they denote is [v]
    clamped to [[2400000, 2500000]] and then rounded to the nearest multiple
    of 10, so [n] is a multiple of 10 of [[2400000, 2500000]]. *)
Theorem frequency_fine_writes_seven_digits
        (v : Z) (self : Kusg245_250A.t) (tr : io) :
  exists (c n : Z) (s : string),
    clamped 2400000 2500000 v c
    /\ n = round_int c (-1)
    /\ nearest_multiple 10 c n
    /\ 2400000 <= n <= 2500000
    /\ numeral 7 n s
    /\ fset Kusg245_250A.frequency_fine v self tr
       = (Return tt, self, written tr [Write ("f" +++ s)]).
Proof.
  set (c := Z.max 2400000 (Z.min 2500000 v)).
  destruct (round_int_tens c) as [q [Hround Hq]].
  assert (Hrange : 240000 <= q <= 250000) by (unfold c in Hq; lia).
  exists c, (10 * q), (zfill 7 (10 * q)). repeat split.
  - unfold c. lia.
  - unfold c. lia.
  - unfold c. lia.
  - now symmetry.
  - apply (nearest_multiple_10 c q Hq).
  - apply (nearest_multiple_10 c q Hq).
  - lia.
  - lia.
  - apply (zfill_7_fine q Hrange).
  - apply (zfill_7_fine q Hrange).
  - rewrite <- percent_d_no_suffix.
    apply (fset_returns Kusg245_250A.frequency_fine
                        (percent_d "f" 7 "") v c (10 * q)).
    + reflexivity.
    + apply truncated_range_Z. lia.
    + simpl. now rewrite Hround.
Qed.

(** C4. For every integer input [v] of [[10, 1000]], the setters of
    [pulse_width] and of [off_time] write the multiple of 5 nearest to [v]
    (commands [C%04d] and [c%04d]). An integer is never half-way between
    two multiples of 5, so there is one such multiple; for 123 it is 125. *)
Theorem pulse_width_and_off_time_round_to_fives
        (v : Z) (self : Kusg245_250A.t) (tr : io) :
  10 <= v <= 1000 ->
  exists w : Z,
    nearest_multiple 5 v w
    /\ (forall w', nearest_multiple 5 v w' -> w' = w)
    /\ 10 <= w <= 1000
    /\ fset Kusg245_250A.pulse_width v self tr
       = (Return tt, self, written tr [Write (percent_d "C" 4 "" w)])
    /\ fset Kusg245_250A.off_time v self tr
       = (Return tt, self, written tr [Write (percent_d "c" 4 "" w)]).
Proof.
  intros Hv.
  destruct (half_round_tens_fives v) as [q [Hw Hq]].
  assert (Hvalid : truncated_range v [10; 1000] = Return v).
  { rewrite truncated_range_Z by lia. f_equal. lia. }
  exists (5 * q). split; [|split; [|split; [|split]]].
  - now apply nearest_multiple_5.
  - intros w' [[k ->] Hnear]. specialize (Hnear (5 * q) ltac:(exists q; lia)).
    lia.
  - lia.
  - rewrite <- Hw.
    apply (fset_returns Kusg245_250A.pulse_width
                        (percent_d_float "C" 4 "") v v
                        (Kusg245_250A.half_round_tens v));
      [reflexivity | exact Hvalid | reflexivity].
  - rewrite <- Hw.
    apply (fset_returns Kusg245_250A.off_time
                        (percent_d_float "c" 4 "") v v
                        (Kusg245_250A.half_round_tens v));
      [reflexivity | exact Hvalid | reflexivity].
Qed.

Lemma pulse_width_and_off_time_round_to_fives_witness :
  exists w : Z,
    nearest_multiple 5 123 w
    /\ (forall w', nearest_multiple 5 123 w' -> w' = w)
    /\ 10 <= w <= 1000
    /\ fset Kusg245_250A.pulse_width 123
            (Kusg245_250A.mkT 250 [Integer 0; Integer 250]) (mkIO [] [])
       = (Return tt, Kusg245_250A.mkT 250 [Integer 0; Integer 250],
          written (mkIO [] []) [Write (percent_d "C" 4 "" w)])
    /\ fset Kusg245_250A.off_time 123
            (Kusg245_250A.mkT 250 [Integer 0; Integer 250]) (mkIO [] [])
       = (Return tt, Kusg245_250A.mkT 250 [Integer 0; Integer 250],
          written (mkIO [] []) [Write (percent_d "c" 4 "" w)]).
Proof.
  apply (pulse_width_and_off_time_round_to_fives 123). lia.
Defined.

(** The example of the claim: 123 is sent as 125. *)
Example pulse_width_123 :
  fset Kusg245_250A.pulse_width 123
       (Kusg245_250A.mkT 250 [Integer 0; Integer 250]) (mkIO [] [])
  = (Return tt, Kusg245_250A.mkT 250 [Integer 0; Integer 250],
     mkIO [Write "C0125"] []).
Proof. reflexivity. Qed.

(* ================================================================== *)
(** ** KU SG 2.45 250 A: phase shift                                   *)
(* ================================================================== *)

(** [round(x)] is at most one half away from [x]. *)
Lemma round_float_near (x : Q) :
  (Qabs (inject_Z (round_float x) - x) <= 1 # 2)%Q.
Proof.
  unfold round_float.
  pose proof (Qfloor_le x) as Hlo.
  pose proof (Qlt_floor x) as Hhi.
  rewrite inject_Z_plus in Hhi.
  change (inject_Z 1) with 1%Q in Hhi.
  apply Qabs_Qle_condition.
  destruct (Qcompare (x - inject_Z (Qfloor x)) (1 # 2)) eqn:E.
  - apply Qeq_alt in E.
    destruct (Z.even (Qfloor x)).
    + split; lra.
    + rewrite inject_Z_plus. change (inject_Z 1) with 1%Q. split; lra.
  - apply Qlt_alt in E. split; lra.
  - apply Qgt_alt in E. rewrite inject_Z_plus.
    change (inject_Z 1) with 1%Q. split; lra.
Qed.

(** Decoding a byte that is within one unit of the exact scaled phase gives
    the phase back within one encoding step. Rounding, exact or with the
    error of floating-point division, stays well inside that unit. *)
Lemma phase_shift_decode_near (v : Q) (byte : Z) :
  (Qabs (inject_Z byte - v / 360 * 256) <= 1)%Q ->
  (Qabs (Kusg245_250A.phase_shift_get_process (inject_Z byte) - v)
   <= 360 / 256)%Q.
Proof.
  unfold Kusg245_250A.phase_shift_get_process. intros Hb.
  apply Qabs_Qle_condition in Hb. apply Qabs_Qle_condition.
  generalize dependent (inject_Z byte). intros b Hb.
  assert (E1 : (v / 360 * 256 == v * (256 # 360))%Q) by field.
  assert (E2 : (b / 256 * 360 == b * (360 # 256))%Q) by field.
  assert (E3 : (360 / 256 == 360 # 256)%Q) by reflexivity.
  rewrite E1 in Hb. rewrite E2, E3.
  split; lra.
Qed.

(** [truncated_range] keeps a rational inside the range [[lo, hi]]. *)
Lemma truncated_range_Q_inside (lo hi v : Q) :
  (lo <= v <= hi)%Q -> truncated_range v [lo; hi] = Return v.
Proof.
  intros [Hlo Hhi]. unfold truncated_range. cbn [py_min_from py_max_from].
  assert (Hmin : le (if lt hi lo then hi else lo) v = true).
  { unfold le, lt; simpl. destruct (Qle_bool lo hi) eqn:E; simpl.
    - now apply Qle_bool_iff.
    - assert (Hle : Qle_bool lo hi = true) by (apply Qle_bool_iff; lra).
      congruence. }
  assert (Hmax : le v (if lt lo hi then hi else lo) = true).
  { unfold le, lt; simpl. destruct (Qle_bool hi lo) eqn:E; simpl.
    - apply Qle_bool_iff in E. apply Qle_bool_iff. lra.
    - now apply Qle_bool_iff. }
  now rewrite Hmin, Hmax.
Qed.

(** C3. For every phase [v] of [[0, 358.6]], the setter of [phase_shift]
    writes the byte [round(v / 360 * 256)], which lies in 0..255, and the
    getter's conversion [byte / 256 * 360] of that byte differs from [v] by
    at most one encoding step, 360/256 = 1.40625 degrees. *)
Theorem phase_shift_round_trip
        (v : Q) (self : Kusg245_250A.t) (tr : io) :
  (0 <= v <= 358.6)%Q ->
  exists byte : Z,
    byte = Kusg245_250A.phase_shift_set_process v
    /\ fset Kusg245_250A.phase_shift v self tr
       = (Return tt, self, written tr [Write (percent_d "H" 3 "" byte)])
    /\ 0 <= byte <= 255
    /\ (Qabs (Kusg245_250A.phase_shift_get_process (inject_Z byte) - v)
        <= 360 / 256)%Q
    /\ (360 / 256 == 1.40625)%Q.
Proof.
  intros Hv.
  pose proof (round_float_near (v / 360 * 256)) as Hnear.
  fold (Kusg245_250A.phase_shift_set_process v) in Hnear.
  exists (Kusg245_250A.phase_shift_set_process v).
  split; [reflexivity|]. split; [|split; [|split]].
  - apply (fset_returns Kusg245_250A.phase_shift (percent_d "H" 3 "") v v);
      [reflexivity | now apply truncated_range_Q_inside | reflexivity].
  - apply Qabs_Qle_condition in Hnear.
    assert (E1 : (v / 360 * 256 == v * (256 # 360))%Q) by field.
    rewrite E1 in Hnear.
    assert (H0 : (-1 < inject_Z (Kusg245_250A.phase_shift_set_process v))%Q)
      by lra.
    assert (H255 : (inject_Z (Kusg245_250A.phase_shift_set_process v)
                    < inject_Z 256)%Q).
    { change (inject_Z 256) with 256%Q. lra. }
    change (-1)%Q with (inject_Z (-1)) in H0.
    rewrite <- Zlt_Qlt in H0, H255. lia.
  - apply phase_shift_decode_near.
    eapply Qle_trans; [exact Hnear | discriminate].
  - reflexivity.
Qed.

Lemma phase_shift_round_trip_witness :
  exists byte : Z,
    byte = Kusg245_250A.phase_shift_set_process 90%Q
    /\ fset Kusg245_250A.phase_shift 90%Q
            (Kusg245_250A.mkT 250 [Integer 0; Integer 250]) (mkIO [] [])
       = (Return tt, Kusg245_250A.mkT 250 [Integer 0; Integer 250],
          written (mkIO [] []) [Write (percent_d "H" 3 "" byte)])
    /\ 0 <= byte <= 255
    /\ (Qabs (Kusg245_250A.phase_shift_get_process (inject_Z byte) - 90)
        <= 360 / 256)%Q
    /\ (360 / 256 == 1.40625)%Q.
Proof.
  apply (phase_shift_round_trip 90%Q).
  split; discriminate.
Defined.

(* ================================================================== *)
(** ** KU SG 2.45 250 A: safe turn-on and shut-down                    *)
(* ================================================================== *)

(** C6. [turn_on] writes the bias-enable command [X], sleeps, and only then
    writes the RF-enable command [O]; [shutdown] writes the RF-disable
    command [o] and then the bias-disable command [x]. Neither writes
    anything else, and whatever state the amplifier was in, after each of
    their commands RF is not on with the bias off. *)
Theorem turn_on_and_shutdown_keep_bias_under_rf
        (self : Kusg245_250A.t) (tr : io) :
  (set_process Kusg245_250A.bias_enabled (Bool true) = "X"
   /\ set_process Kusg245_250A.rf_enabled (Bool true) = "O"
   /\ set_process Kusg245_250A.rf_enabled (Bool false) = "o"
   /\ set_process Kusg245_250A.bias_enabled (Bool false) = "x")
  /\ Kusg245_250A.turn_on self tr
     = (Return tt, self, written tr [Write "X"; Sleep 0.500; Write "O"])
  /\ Kusg245_250A.shutdown self tr
     = (Return tt, self, written tr [Write "o"; Write "x"])
  /\ (forall s0 : Amplifier.state,
         forallb Amplifier.safe
                 (Amplifier.states s0 [Write "X"; Sleep 0.500; Write "O"])
         = true)
  /\ (forall s0 : Amplifier.state,
         forallb Amplifier.safe (Amplifier.states s0 [Write "o"; Write "x"])
         = true).
Proof.
  split; [repeat split|]. split; [|split; [|split]].
  - unfold Kusg245_250A.turn_on, fset, bind, sleep, write, emit, written.
    simpl. now rewrite <- !app_assoc.
  - unfold Kusg245_250A.shutdown, fset, bind, write, emit, written.
    simpl. now rewrite <- !app_assoc.
  - intros [[|] [|]]; reflexivity.
  - intros [[|] [|]]; reflexivity.
Qed.

(* ================================================================== *)
(** ** KU SG 2.45 250 A: the constructor and the power range           *)
(* ================================================================== *)

Lemma bind_keeps_self {S A B} (m : M S A) (k : A -> M S B) :
  keeps_self m -> (forall a, keeps_self (k a)) -> keeps_self (bind m k).
Proof.
  intros Hm Hk self tr. unfold bind.
  specialize (Hm self tr).
  destruct (m self tr) as [[[a|e] self'] tr']; simpl in Hm; subst self'.
  - apply Hk.
  - reflexivity.
Qed.

Lemma ask_keeps_self {S} (command : string) : keeps_self (S := S) (ask command).
Proof.
  intros self tr. unfold ask, bind, write, emit, read. simpl.
  destruct (pending tr); reflexivity.
Qed.

Lemma ret_keeps_self {S A} (a : A) : keeps_self (S := S) (ret a).
Proof. intros self tr. reflexivity. Qed.

Lemma discard_keeps_self {A} (m : M Kusg245_250A.t A) :
  keeps_self m -> keeps_self (Kusg245_250A.discard m).
Proof.
  intros Hm. apply bind_keeps_self; [exact Hm|].
  intros _. apply ret_keeps_self.
Qed.

Lemma tune_keeps_self (power : number) :
  keeps_self (Kusg245_250A.tune power).
Proof.
  intros self tr. unfold Kusg245_250A.tune, bind, get_self.
  destruct (truncated_range power
                            [Integer 0; Kusg245_250A._power_limit self])
    as [[z|q]|e]; reflexivity.
Qed.

(** No property and no method of the class changes an attribute. *)
Lemma perform_keeps_self (c : Kusg245_250A.call) :
  keeps_self (Kusg245_250A.perform c).
Proof.
  destruct c; simpl;
    try (apply discard_keeps_self;
         first [apply ask_keeps_self | intros self tr; apply fget_keeps_self]);
    try (intros self tr; apply fset_keeps_self);
    try apply tune_keeps_self;
    try (intros self tr; reflexivity).
Qed.

Lemma perform_all_keeps_self (calls : list Kusg245_250A.call)
      (self : Kusg245_250A.t) (tr : io) :
  fst (perform_all calls self tr) = self.
Proof.
  revert self tr. induction calls as [|c calls IH]; intros self tr; simpl.
  - reflexivity.
  - pose proof (perform_keeps_self c self tr) as Hc.
    destruct (Kusg245_250A.perform c self tr) as [[o self'] tr'].
    simpl in Hc. subst self'. apply IH.
Qed.

(** C10. The constructor raises [AssertionError] for every [power_limit]
    that is at most 0 or greater than 250. For every [power_limit] of
    (0, 250], an integer or not, it returns an instance whose range for the
    power set-point is [[0, power_limit]], and that range is still
    [[0, power_limit]] after any sequence of accesses to the properties and
    methods of the class. *)
Theorem init_establishes_power_range (power_limit : number) (tr : io) :
  ((num power_limit <= 0)%Q \/ (250 < num power_limit)%Q ->
   Kusg245_250A.init power_limit tr = (Raise AssertionError, tr))
  /\ ((0 < num power_limit <= 250)%Q ->
      exists self : Kusg245_250A.t,
        Kusg245_250A.init power_limit tr = (Return self, tr)
        /\ Kusg245_250A.power_setpoint_values self
           = [Integer 0; power_limit]
        /\ forall (calls : list Kusg245_250A.call) (tr' : io),
            Kusg245_250A.power_setpoint_values
              (fst (perform_all calls self tr'))
            = [Integer 0; power_limit]).
Proof.
  unfold Kusg245_250A.init, lt, le.
  change (num (Integer 0)) with 0%Q. change (num (Integer 250)) with 250%Q.
  split.
  - intros Hbad.
    destruct (Qle_bool (num power_limit) 0) eqn:E0;
      destruct (Qle_bool (num power_limit) 250) eqn:E250;
      cbn [negb andb]; try reflexivity.
    apply Qle_bool_iff in E250.
    destruct Hbad as [Hle|Hgt]; [|lra].
    apply Qle_bool_iff in Hle. congruence.
  - intros [Hlo Hhi].
    exists (Kusg245_250A.mkT power_limit [Integer 0; power_limit]).
    assert (E0 : Qle_bool (num power_limit) 0 = false).
    { destruct (Qle_bool (num power_limit) 0) eqn:E; [|reflexivity].
      apply Qle_bool_iff in E. lra. }
    assert (E250 : Qle_bool (num power_limit) 250 = true)
      by now apply Qle_bool_iff.
    rewrite E0, E250. cbn [negb andb].
    split; [reflexivity|]. split; [reflexivity|].
    intros calls tr'. now rewrite perform_all_keeps_self.
Qed.

(* ================================================================== *)
(** ** Strict and truncating properties                                *)
(* ================================================================== *)

(** A strict property with a set command rejects what is not in its
    domain, before anything is written. *)
Lemma strict_rejects {S V P W} `{PyEq V} (c : control V P W) :
  strict c -> set_command c <> None -> rejects S c.
Proof.
  intros Hstrict Hcmd v self tr Hout. unfold fset, bind.
  destruct (set_command c) as [template|]; [|congruence].
  rewrite Hstrict. unfold strict_discrete_set. now rewrite Hout.
Qed.

(** A property on integers with [truncated_range] over [[lo, hi]] and no
    value map. *)
Lemma truncated_range_clamps_Z {S P} (c : control Z P P)
      (template : P -> string) (lo hi : Z) :
  lo <= hi ->
  validator c = truncated_range ->
  values c = [lo; hi] ->
  set_command c = Some template ->
  map_values c = no_map ->
  clamps S (fun m => lo <= m <= hi) c.
Proof.
  intros Hle Hval Hvalues Hcmd Hmap v self tr.
  exists (Z.max lo (Z.min hi v)), template,
         (set_process c (Z.max lo (Z.min hi v))).
  assert (Hmapped : map_values c (set_process c (Z.max lo (Z.min hi v)))
                    = Return (set_process c (Z.max lo (Z.min hi v))))
    by now rewrite Hmap.
  split; [split|split; [|split; [|split]]].
  - lia.
  - intros m Hm. apply dist_le_Z. lia.
  - lia.
  - exact Hcmd.
  - exact Hmapped.
  - apply (fset_returns c template v (Z.max lo (Z.min hi v)));
      [exact Hcmd | | exact Hmapped].
    rewrite Hval, Hvalues. now apply truncated_range_Z.
Qed.

(** [truncated_range] on rationals, for a range given as [[lo, hi]] with
    [lo < hi]. *)
Lemma truncated_range_Q (lo hi v : Q) :
  (lo < hi)%Q ->
  exists v' : Q,
    truncated_range v [lo; hi] = Return v'
    /\ (lo <= v' <= hi)%Q
    /\ (forall m, (lo <= m <= hi)%Q -> (dist v v' <= dist v m)%Q)
    /\ ((lo <= v <= hi)%Q -> v' = v).
Proof.
  intros Hlt. unfold truncated_range. cbn [py_min_from py_max_from].
  assert (Hmin : lt hi lo = false).
  { unfold lt; simpl. apply negb_false_iff, Qle_bool_iff. lra. }
  assert (Hmax : lt lo hi = true).
  { unfold lt; simpl. apply negb_true_iff.
    destruct (Qle_bool hi lo) eqn:E; [|reflexivity].
    apply Qle_bool_iff in E. lra. }
  rewrite Hmin, Hmax. unfold le, lt. cbn [num PyNumber_Q].
  destruct (Qle_bool lo v) eqn:Elo; destruct (Qle_bool v hi) eqn:Ehi;
    cbn [andb negb].
  - apply Qle_bool_iff in Elo, Ehi. exists v.
    split; [reflexivity|]. split; [now split|]. split; [|reflexivity].
    intros m _. rewrite dist_self. apply dist_nonneg.
  - apply Qle_bool_iff in Elo.
    assert (Hv : (hi < v)%Q).
    { apply Qnot_le_lt. intros Hle. apply Qle_bool_iff in Hle. congruence. }
    exists hi.
    split; [reflexivity|]. split; [split; lra|]. split.
    + intros m [_ Hm]. unfold dist. cbn [num PyNumber_Q].
      rewrite !Qabs_pos by lra. lra.
    + intros [_ Hle]. lra.
  - apply Qle_bool_iff in Ehi.
    assert (Hv : (v < lo)%Q).
    { apply Qnot_le_lt. intros Hle. apply Qle_bool_iff in Hle. congruence. }
    exists lo.
    split; [reflexivity|]. split; [split; lra|]. split.
    + intros m [Hm _]. unfold dist. cbn [num PyNumber_Q].
      rewrite !Qabs_neg by lra. lra.
    + intros [Hle _]. lra.
  - assert (Hv : (v < lo)%Q).
    { apply Qnot_le_lt. intros Hle. apply Qle_bool_iff in Hle. congruence. }
    assert (Hv' : (hi < v)%Q).
    { apply Qnot_le_lt. intros Hle. apply Qle_bool_iff in Hle. congruence. }
    lra.
Qed.

Lemma phase_shift_clamps (S : Type) :
  clamps S (fun m => 0 <= m <= 358.6)%Q Kusg245_250A.phase_shift.
Proof.
  intros v self tr.
  destruct (truncated_range_Q 0 358.6 v ltac:(reflexivity))
    as [v' [Hret [Hin [Hnear Hsame]]]].
  exists v', (percent_d "H" 3 ""), (Kusg245_250A.phase_shift_set_process v').
  split; [split; assumption|]. split; [exact Hsame|].
  split; [reflexivity|]. split; [reflexivity|].
  apply (fset_returns Kusg245_250A.phase_shift (percent_d "H" 3 "") v v');
    [reflexivity | exact Hret | reflexivity].
Qed.

(** [truncated_range] on numbers of any kind, for a range given as
    [[lo, hi]] with [lo] below [hi]. *)
Lemma truncated_range_num {V} `{PyNumber V} (lo hi v : V) :
  (num lo < num hi)%Q ->
  exists v' : V,
    truncated_range v [lo; hi] = Return v'
    /\ (num lo <= num v' <= num hi)%Q
    /\ (forall m, (num lo <= num m <= num hi)%Q -> (dist v v' <= dist v m)%Q)
    /\ ((num lo <= num v <= num hi)%Q -> v' = v)
    /\ ((num v < num lo)%Q -> v' = lo)
    /\ ((num hi < num v)%Q -> v' = hi).
Proof.
  intros Hlt. unfold truncated_range. cbn [py_min_from py_max_from].
  assert (Hmin : lt hi lo = false).
  { unfold lt. apply negb_false_iff, Qle_bool_iff. lra. }
  assert (Hmax : lt lo hi = true).
  { unfold lt. apply negb_true_iff.
    destruct (Qle_bool (num hi) (num lo)) eqn:E; [|reflexivity].
    apply Qle_bool_iff in E. lra. }
  rewrite Hmin, Hmax. unfold le, lt.
  destruct (Qle_bool (num lo) (num v)) eqn:Elo;
    destruct (Qle_bool (num v) (num hi)) eqn:Ehi; cbn [andb negb].
  - apply Qle_bool_iff in Elo, Ehi. exists v.
    split; [reflexivity|]. split; [now split|]. split; [|split; [|split]].
    + intros m _. rewrite dist_self. apply dist_nonneg.
    + reflexivity.
    + intros Hv. lra.
    + intros Hv. lra.
  - apply Qle_bool_iff in Elo.
    assert (Hv : (num hi < num v)%Q).
    { apply Qnot_le_lt. intros Hle. apply Qle_bool_iff in Hle. congruence. }
    exists hi.
    split; [reflexivity|]. split; [split; lra|]. split; [|split; [|split]].
    + intros m [_ Hm]. unfold dist. rewrite !Qabs_pos by lra. lra.
    + intros [_ Hle]. lra.
    + intros Hv'. lra.
    + reflexivity.
  - apply Qle_bool_iff in Ehi.
    assert (Hv : (num v < num lo)%Q).
    { apply Qnot_le_lt. intros Hle. apply Qle_bool_iff in Hle. congruence. }
    exists lo.
    split; [reflexivity|]. split; [split; lra|]. split; [|split; [|split]].
    + intros m [Hm _]. unfold dist. rewrite !Qabs_neg by lra. lra.
    + intros [Hle _]. lra.
    + reflexivity.
    + intros Hv'. lra.
  - assert (Hv : (num v < num lo)%Q).
    { apply Qnot_le_lt. intros Hle. apply Qle_bool_iff in Hle. congruence. }
    assert (Hv' : (num hi < num v)%Q).
    { apply Qnot_le_lt. intros Hle. apply Qle_bool_iff in Hle. congruence. }
    lra.
Qed.

(** [power_setpoint] on a generator the constructor returned, for a limit
    and an input of either kind. *)
Lemma power_setpoint_clamps (power_limit : number) (tr0 tr1 : io)
      (self : Kusg245_250A.t) :
  Kusg245_250A.init power_limit tr0 = (Return self, tr1) ->
  clamps Kusg245_250A.t (fun m => (0 <= num m <= num power_limit)%Q)
         (Kusg245_250A.power_setpoint self).
Proof.
  intros Hinit.
  destruct (Kusg245_250A_init_number _ _ _ _ Hinit) as [[Hlo Hhi] [-> _]].
  intros v self' tr.
  assert (Hlo' : (num (Integer 0) < num power_limit)%Q) by exact Hlo.
  destruct (truncated_range_num (Integer 0) power_limit v Hlo')
    as [v' [Hret [Hin [Hnear [Hsame _]]]]].
  exists v', (percent_d_number "A" 3 ""), v'.
  split; [split; assumption|]. split; [exact Hsame|].
  split; [reflexivity|]. split; [reflexivity|].
  apply (fset_returns _ (percent_d_number "A" 3 "") v v');
    [reflexivity | exact Hret | reflexivity].
Qed.

Lemma reflection_limit_rounds_up (S : Type) :
  rounds_up S [0; 100; 150; 180; 200; 230] Kusg245_250A.reflection_limit.
Proof.
  intros v self tr.
  destruct (reflection_limit_validated v)
    as [m [code [Hret [HIn [_ [Hmap [Hup Htop]]]]]]].
  exists m, (percent_d "B" 0 ""), code.
  split; [exact HIn|]. split; [exact Hup|]. split; [exact Htop|].
  split; [reflexivity|]. split; [exact Hmap|].
  apply (fset_returns Kusg245_250A.reflection_limit
                      (percent_d "B" 0 "") v m code);
    [reflexivity | exact Hret | exact Hmap].
Qed.

(** A boolean control takes [True] and what equals it, and rejects the
    rest. *)
Example bias_enabled_1 :
  fset Kusg245_250A.bias_enabled (Int 1)
       (Kusg245_250A.mkT 250 [Integer 0; Integer 250]) (mkIO [] [])
  = (Return tt, Kusg245_250A.mkT 250 [Integer 0; Integer 250],
     mkIO [Write "X"] []).
Proof. reflexivity. Qed.

Example bias_enabled_2 :
  fset Kusg245_250A.bias_enabled (Int 2)
       (Kusg245_250A.mkT 250 [Integer 0; Integer 250]) (mkIO [Write "o"] [])
  = (Raise ValueError, Kusg245_250A.mkT 250 [Integer 0; Integer 250],
     mkIO [Write "o"] []).
Proof. reflexivity. Qed.

Example display_mode_time :
  fset Keithley705.display_mode "time"
       (Keithley705.mkT (range 1 21)) (mkIO [] [])
  = (Return tt, Keithley705.mkT (range 1 21), mkIO [Write "D2X"] []).
Proof. reflexivity. Qed.

Example number_of_poles_3 :
  fset Keithley705.number_of_poles 3
       (Keithley705.mkT (range 1 21)) (mkIO [Write "RX"] [])
  = (Raise ValueError, Keithley705.mkT (range 1 21), mkIO [Write "RX"] []).
Proof. reflexivity. Qed.

(** C7, as the claim has it, fails for [truncated_discrete_set]: 110 is
    not a limit of [reflection_limit], the limit nearest to it is 100, whose
    command is [B1], and yet the setter writes [B2], the command of 150. *)
Lemma reflection_limit_110_is_not_sent_as_the_nearest :
  ~ In 110 [0; 100; 150; 180; 200; 230]
  /\ In 100 [0; 100; 150; 180; 200; 230]
  /\ Z.abs (110 - 100) < Z.abs (110 - 150)
  /\ map_dict Kusg245_250A.reflection_limit_values 100 = Return 1
  /\ map_dict Kusg245_250A.reflection_limit_values 150 = Return 2
  /\ fset Kusg245_250A.reflection_limit 110
          (Kusg245_250A.mkT 250 [Integer 0; Integer 250]) (mkIO [] [])
     = (Return tt, Kusg245_250A.mkT 250 [Integer 0; Integer 250],
        mkIO [Write "B2"] []).
Proof.
  split.
  - simpl. intros H. repeat (destruct H as [H|H]; [discriminate H|]). exact H.
  - split; [simpl; tauto|]. split; [reflexivity|].
    split; [reflexivity|]. split; reflexivity.
Qed.

(** C7, amended. Every property declared with [strict_discrete_set] raises
    on a value outside its domain before anything is written, and leaves the
    command stream as it was; so do, in particular, the eight strict
    properties of the two drivers. The properties declared with a
    truncating validator never raise and write one command. With
    [truncated_range] the command is made from the valid value nearest to
    the input, the nearer bound of the range. With [truncated_discrete_set]
    ([reflection_limit]) it is made from the smallest valid value that is
    not below the input, and from the largest valid value when the input is
    above them all. Setting [number_of_poles] to an integer other than 0,
    1, 2, 4 raises and writes nothing. *)
Theorem strict_properties_reject_truncating_properties_never_raise :
  (forall (S V P W : Type) (E : PyEq V) (c : control V P W),
      strict c -> set_command c <> None -> rejects S c)
  /\ (rejects Keithley705.t Keithley705.number_of_poles
      /\ rejects Keithley705.t Keithley705.display_mode
      /\ rejects Keithley705.t Keithley705.date_format
      /\ rejects Kusg245_250A.t Kusg245_250A.external_enabled
      /\ rejects Kusg245_250A.t Kusg245_250A.bias_enabled
      /\ rejects Kusg245_250A.t Kusg245_250A.rf_enabled
      /\ rejects Kusg245_250A.t Kusg245_250A.pulse_mode_enabled
      /\ rejects Kusg245_250A.t Kusg245_250A.freq_steps_fine_enabled)
  /\ (truncating Kusg245_250A.frequency_coarse
      /\ clamps Kusg245_250A.t (fun m => 2400 <= m <= 2500)
                Kusg245_250A.frequency_coarse)
  /\ (truncating Kusg245_250A.frequency_fine
      /\ clamps Kusg245_250A.t (fun m => 2400000 <= m <= 2500000)
                Kusg245_250A.frequency_fine)
  /\ (forall (power_limit : number) (tr0 tr1 : io) (self : Kusg245_250A.t),
         Kusg245_250A.init power_limit tr0 = (Return self, tr1) ->
         truncating (Kusg245_250A.power_setpoint self)
         /\ clamps Kusg245_250A.t
                   (fun m => (0 <= num m <= num power_limit)%Q)
                   (Kusg245_250A.power_setpoint self))
  /\ (truncating Kusg245_250A.pulse_width
      /\ clamps Kusg245_250A.t (fun m => 10 <= m <= 1000)
                Kusg245_250A.pulse_width)
  /\ (truncating Kusg245_250A.off_time
      /\ clamps Kusg245_250A.t (fun m => 10 <= m <= 1000)
                Kusg245_250A.off_time)
  /\ (truncating Kusg245_250A.phase_shift
      /\ clamps Kusg245_250A.t (fun m => 0 <= m <= 358.6)%Q
                Kusg245_250A.phase_shift)
  /\ (truncating Kusg245_250A.reflection_limit
      /\ rounds_up Kusg245_250A.t [0; 100; 150; 180; 200; 230]
                   Kusg245_250A.reflection_limit)
  /\ (forall (v : Z) (self : Keithley705.t) (tr : io),
         ~ In v [0; 1; 2; 4] ->
         fset Keithley705.number_of_poles v self tr
         = (Raise ValueError, self, tr)).
Proof.
  split; [intros S V P W E c; apply strict_rejects|].
  split; [repeat split; apply strict_rejects;
          first [reflexivity | discriminate]|].
  split; [split; [now left|]|].
  { apply (truncated_range_clamps_Z _ (percent_d "f" 4 "") 2400 2500);
      first [lia | reflexivity]. }
  split; [split; [now left|]|].
  { apply (truncated_range_clamps_Z _ (percent_d "f" 7 "") 2400000 2500000);
      first [lia | reflexivity]. }
  split.
  { intros power_limit tr0 tr1 self Hinit.
    split; [now left|]. now apply (power_setpoint_clamps _ tr0 tr1). }
  split; [split; [now left|]|].
  { apply (truncated_range_clamps_Z _ (percent_d_float "C" 4 "") 10 1000);
      first [lia | reflexivity]. }
  split; [split; [now left|]|].
  { apply (truncated_range_clamps_Z _ (percent_d_float "c" 4 "") 10 1000);
      first [lia | reflexivity]. }
  split; [split; [now left | apply phase_shift_clamps]|].
  split; [split; [now right | apply reflection_limit_rounds_up]|].
  intros v self tr Hout.
  apply (strict_rejects Keithley705.number_of_poles);
    [reflexivity | discriminate |].
  destruct (py_in v (values Keithley705.number_of_poles)) eqn:E;
    [|reflexivity].
  apply py_in_Z in E. contradiction.
Qed.

(* ================================================================== *)
(** ** Further properties: numerals on the wire                        *)
(* ================================================================== *)

Lemma zfill_numeral_range (width : nat) (lo hi : Z) :
  forallb (fun z => numeralb width z (zfill width z)) (range lo hi) = true ->
  forall z, lo <= z < hi -> numeral width z (zfill width z).
Proof.
  intros Hall z Hz. apply numeralb_numeral.
  now apply (forallb_range _ lo hi Hall).
Qed.

(** [%03d] of 0..255, [%04d] of 10..2500. *)
Lemma zfill_3 (z : Z) : 0 <= z <= 255 -> numeral 3 z (zfill 3 z).
Proof.
  intros Hz. apply (zfill_numeral_range 3 0 256); [vm_compute; reflexivity|lia].
Qed.

Lemma zfill_4 (z : Z) : 10 <= z <= 2500 -> numeral 4 z (zfill 4 z).
Proof.
  intros Hz.
  apply (zfill_numeral_range 4 10 2501); [vm_compute; reflexivity|lia].
Qed.

(** A setter whose template is [letter%0<width>d]. *)
Lemma fset_writes_numeral {S V P} (c : control V P Z)
      (letter : string) (width : nat) (v v' : V) (w : Z)
      (self : S) (tr : io) :
  set_command c = Some (percent_d letter width "") ->
  validator c v (values c) = Return v' ->
  map_values c (set_process c v') = Return w ->
  numeral width w (zfill width w) ->
  writes_numeral (fset c v) self tr letter width w.
Proof.
  intros Hc Hv Hm Hn. exists (zfill width w). split; [exact Hn|].
  rewrite <- percent_d_no_suffix.
  now apply (fset_returns c (percent_d letter width "") v v' w).
Qed.

(* ================================================================== *)
(** ** Further properties: tuning and the power limit                  *)
(* ================================================================== *)

(** [tune] given an integer, on an instance whose limit is the integer
    [limit]. *)
Lemma tune_run (limit power : Z) (self : Kusg245_250A.t) (tr : io) :
  0 <= limit ->
  Kusg245_250A._power_limit self = Integer limit ->
  Kusg245_250A.tune (Integer power) self tr
  = (Return tt, self,
     written tr [Write (percent_d "b" 3 "" (Z.max 0 (Z.min limit power)))]).
Proof.
  intros Hl Hlimit. unfold Kusg245_250A.tune.
  unfold bind at 1. unfold get_self. unfold bind.
  rewrite Hlimit, truncated_range_Integer by exact Hl. reflexivity.
Qed.

(** X1. On a generator constructed with an integer [power_limit], and
    after any sequence of accesses to it, [tune(p)] and the setter of
    [power_setpoint] given an integer [p] send the same three digits, after
    [b] and after [A]: those of [p] clamped to [[0, power_limit]]. Neither
    raises, and neither sends more than [power_limit]. *)
Theorem tune_and_power_setpoint_send_the_same_power
        (power_limit p : Z) (tr0 tr1 tr : io) (self : Kusg245_250A.t)
        (calls : list Kusg245_250A.call) :
  Kusg245_250A.init (Integer power_limit) tr0 = (Return self, tr1) ->
  exists (w : Z) (s : string),
    clamped 0 power_limit p w
    /\ 0 <= w <= power_limit
    /\ numeral 3 w s
    /\ Kusg245_250A.tune (Integer p) (fst (perform_all calls self tr1)) tr
       = (Return tt, self, written tr [Write ("b" +++ s)])
    /\ Kusg245_250A.set_power_setpoint
         (Integer p) (fst (perform_all calls self tr1)) tr
       = (Return tt, self, written tr [Write ("A" +++ s)]).
Proof.
  intros Hinit. rewrite perform_all_keeps_self.
  destruct (Kusg245_250A_init_returns _ _ _ _ Hinit) as [Hl [-> _]].
  exists (Z.max 0 (Z.min power_limit p)),
         (zfill 3 (Z.max 0 (Z.min power_limit p))).
  split; [unfold clamped; lia|]. split; [lia|].
  split; [apply zfill_3; lia|]. split.
  - rewrite <- percent_d_no_suffix. apply tune_run; [lia|reflexivity].
  - rewrite <- percent_d_no_suffix.
    apply set_power_setpoint_run; [lia|reflexivity].
Qed.

Lemma tune_and_power_setpoint_send_the_same_power_witness :
  exists (w : Z) (s : string),
    clamped 0 100 300 w
    /\ 0 <= w <= 100
    /\ numeral 3 w s
    /\ Kusg245_250A.tune (Integer 300)
         (fst (perform_all [Kusg245_250A.call_turn_on;
                            Kusg245_250A.set_frequency_coarse 2450]
                           (Kusg245_250A.mkT 100 [Integer 0; Integer 100])
                           (mkIO [] [])))
         (mkIO [] [])
       = (Return tt, Kusg245_250A.mkT 100 [Integer 0; Integer 100],
          written (mkIO [] []) [Write ("b" +++ s)])
    /\ Kusg245_250A.set_power_setpoint (Integer 300)
         (fst (perform_all [Kusg245_250A.call_turn_on;
                            Kusg245_250A.set_frequency_coarse 2450]
                           (Kusg245_250A.mkT 100 [Integer 0; Integer 100])
                           (mkIO [] [])))
         (mkIO [] [])
       = (Return tt, Kusg245_250A.mkT 100 [Integer 0; Integer 100],
          written (mkIO [] []) [Write ("A" +++ s)]).
Proof.
  apply (tune_and_power_setpoint_send_the_same_power
           100 300 (mkIO [] []) (mkIO [] [])).
  reflexivity.
Defined.

(** X12. [tune] refuses a float where the setter of [power_setpoint] does
    not. On a generator the constructor returned, [tune] raises
    [ValueError] and writes nothing when the power it is given is a float
    of [[0, power_limit]], and when the limit is a float and the power, of
    either kind, is above it: the format code [d] of the f-string takes no
    float. A power above an integer limit is sent as the limit, and a power
    below 0 as 000. The setter of [power_setpoint] returns for every
    number. *)
Theorem tune_raises_on_a_float
        (power_limit power : number) (tr0 tr1 tr : io)
        (self : Kusg245_250A.t) :
  Kusg245_250A.init power_limit tr0 = (Return self, tr1) ->
  (forall q : Q,
      power = Float q -> (0 <= q <= num power_limit)%Q ->
      Kusg245_250A.tune power self tr = (Raise ValueError, self, tr))
  /\ (forall l : Q,
         power_limit = Float l -> (l < num power)%Q ->
         Kusg245_250A.tune power self tr = (Raise ValueError, self, tr))
  /\ (forall z : Z,
         power_limit = Integer z -> (inject_Z z < num power)%Q ->
         Kusg245_250A.tune power self tr
         = (Return tt, self, written tr [Write (percent_d "b" 3 "" z)]))
  /\ ((num power < 0)%Q ->
      Kusg245_250A.tune power self tr
      = (Return tt, self, written tr [Write "b000"]))
  /\ exists c : number,
      Kusg245_250A.set_power_setpoint power self tr
      = (Return tt, self, written tr [Write (percent_d_number "A" 3 "" c)]).
Proof.
  intros Hinit.
  destruct (Kusg245_250A_init_number _ _ _ _ Hinit) as [[Hlo Hhi] [-> _]].
  assert (Hlo' : (num (Integer 0) < num power_limit)%Q) by exact Hlo.
  destruct (truncated_range_num (Integer 0) power_limit power Hlo')
    as [c [Hret [Hin [_ [Hsame [Hbelow Habove]]]]]].
  change (num (Integer 0)) with 0%Q in Hsame, Hbelow, Hin.
  assert (Htune : Kusg245_250A.tune power
                    (Kusg245_250A.mkT power_limit [Integer 0; power_limit]) tr
                  = match fstring_d "b" 3 c with
                    | Return command =>
                        (Return tt,
                         Kusg245_250A.mkT power_limit [Integer 0; power_limit],
                         written tr [Write command])
                    | Raise e =>
                        (Raise e,
                         Kusg245_250A.mkT power_limit [Integer 0; power_limit],
                         tr)
                    end).
  { unfold Kusg245_250A.tune. unfold bind at 1. unfold get_self.
    unfold bind. cbn [Kusg245_250A._power_limit]. rewrite Hret.
    cbn [lift ret]. destruct (fstring_d "b" 3 c); reflexivity. }
  split; [|split; [|split; [|split]]].
  - intros q -> Hq. rewrite Htune, (Hsame Hq). reflexivity.
  - intros l -> Hl. rewrite Htune, (Habove Hl). reflexivity.
  - intros z -> Hz. rewrite Htune, (Habove Hz). reflexivity.
  - intros Hneg. rewrite Htune, (Hbelow Hneg). reflexivity.
  - exists c. unfold Kusg245_250A.set_power_setpoint.
    unfold bind at 1. unfold get_self.
    apply (fset_returns _ (percent_d_number "A" 3 "") power c c);
      [reflexivity | exact Hret | reflexivity].
Qed.

Lemma tune_raises_on_a_float_witness :
  (forall q : Q,
      Float 50.5 = Float q -> (0 <= q <= num (Integer 100))%Q ->
      Kusg245_250A.tune (Float 50.5)
                        (Kusg245_250A.mkT 100 [Integer 0; Integer 100])
                        (mkIO [] [])
      = (Raise ValueError, Kusg245_250A.mkT 100 [Integer 0; Integer 100],
         mkIO [] []))
  /\ (forall l : Q,
         Integer 100 = Float l -> (l < num (Float 50.5))%Q ->
         Kusg245_250A.tune (Float 50.5)
                           (Kusg245_250A.mkT 100 [Integer 0; Integer 100])
                           (mkIO [] [])
         = (Raise ValueError, Kusg245_250A.mkT 100 [Integer 0; Integer 100],
            mkIO [] []))
  /\ (forall z : Z,
         Integer 100 = Integer z -> (inject_Z z < num (Float 50.5))%Q ->
         Kusg245_250A.tune (Float 50.5)
                           (Kusg245_250A.mkT 100 [Integer 0; Integer 100])
                           (mkIO [] [])
         = (Return tt, Kusg245_250A.mkT 100 [Integer 0; Integer 100],
            written (mkIO [] []) [Write (percent_d "b" 3 "" z)]))
  /\ ((num (Float 50.5) < 0)%Q ->
      Kusg245_250A.tune (Float 50.5)
                        (Kusg245_250A.mkT 100 [Integer 0; Integer 100])
                        (mkIO [] [])
      = (Return tt, Kusg245_250A.mkT 100 [Integer 0; Integer 100],
         written (mkIO [] []) [Write "b000"]))
  /\ exists c : number,
      Kusg245_250A.set_power_setpoint
        (Float 50.5) (Kusg245_250A.mkT 100 [Integer 0; Integer 100])
        (mkIO [] [])
      = (Return tt, Kusg245_250A.mkT 100 [Integer 0; Integer 100],
         written (mkIO [] []) [Write (percent_d_number "A" 3 "" c)]).
Proof.
  apply (tune_raises_on_a_float (Integer 100) (Float 50.5)
                                (mkIO [] []) (mkIO [] [])).
  reflexivity.
Defined.

(* ================================================================== *)
(** ** Further properties: the two frequency commands                  *)
(* ================================================================== *)

Lemma append_length (a b : string) :
  String.length (a +++ b) = (String.length a + String.length b)%nat.
Proof. induction a as [|c a IH]; simpl; [reflexivity | now rewrite IH]. Qed.

(** X2. For every integer input the setter of [frequency_coarse] writes [f]
    followed by exactly 4 digits, those of the input clamped to
    [[2400, 2500]]; and whatever the two inputs, the command it writes is
    not the command the setter of [frequency_fine] writes, although both
    begin with [f]. *)
Theorem frequency_coarse_writes_four_digits
        (v : Z) (self : Kusg245_250A.t) (tr : io) :
  (exists c : Z,
      clamped 2400 2500 v c
      /\ writes_numeral (fset Kusg245_250A.frequency_coarse v) self tr "f" 4 c)
  /\ forall v' : Z,
      fset Kusg245_250A.frequency_coarse v self tr
      <> fset Kusg245_250A.frequency_fine v' self tr.
Proof.
  assert (Hcoarse :
            writes_numeral (fset Kusg245_250A.frequency_coarse v) self tr
                           "f" 4 (Z.max 2400 (Z.min 2500 v))).
  { apply (fset_writes_numeral Kusg245_250A.frequency_coarse "f" 4 v
                               (Z.max 2400 (Z.min 2500 v)));
      [reflexivity | apply truncated_range_Z; lia | reflexivity |].
    apply zfill_4. lia. }
  split.
  - exists (Z.max 2400 (Z.min 2500 v)). split; [unfold clamped; lia|].
    exact Hcoarse.
  - intros v'. destruct Hcoarse as [s [[Hlen _] ->]].
    set (c' := Z.max 2400000 (Z.min 2500000 v')).
    destruct (round_int_tens c') as [q [Hround Hq]].
    assert (Hrange : 240000 <= q <= 250000) by (unfold c' in Hq; lia).
    destruct (zfill_7_fine q Hrange) as [Hlen' _].
    rewrite (fset_returns Kusg245_250A.frequency_fine (percent_d "f" 7 "")
                          v' c' (10 * q));
      [| reflexivity | apply truncated_range_Z; lia
       | simpl; now rewrite Hround].
    rewrite percent_d_no_suffix. intros E.
    assert (El : String.length ("f" +++ s)
                 = String.length ("f" +++ zfill 7 (10 * q))).
    { injection E as E. apply app_inv_head in E. injection E as E.
      now rewrite E. }
    rewrite !append_length, Hlen, Hlen' in El. discriminate El.
Qed.

(* ================================================================== *)
(** ** Further properties: the phase byte                              *)
(* ================================================================== *)

(** The byte of a phase of [[0, 358.6]]. *)
Lemma phase_byte_range (v : Q) :
  (0 <= v <= 358.6)%Q ->
  0 <= Kusg245_250A.phase_shift_set_process v <= 255.
Proof.
  intros Hv. unfold Kusg245_250A.phase_shift_set_process.
  pose proof (round_float_near (v / 360 * 256)) as Hnear.
  remember (round_float (v / 360 * 256)) as r eqn:Er. clear Er.
  apply Qabs_Qle_condition in Hnear.
  assert (E1 : (v / 360 * 256 == v * (256 # 360))%Q) by field.
  rewrite E1 in Hnear.
  assert (H0 : (inject_Z (-1) < inject_Z r)%Q).
  { change (inject_Z (-1)) with (-1)%Q. lra. }
  assert (H255 : (inject_Z r < inject_Z 256)%Q).
  { change (inject_Z 256) with 256%Q. lra. }
  rewrite <- Zlt_Qlt in H0, H255. lia.
Qed.

(** An integer within one half of an integer is that integer. *)
Lemma round_float_integer (x : Q) (n : Z) :
  (Qabs (x - inject_Z n) < 1 # 2)%Q -> round_float x = n.
Proof.
  intros Hx. pose proof (round_float_near x) as Hnear.
  apply Qabs_Qle_condition in Hnear.
  assert (Hx' : (- (1 # 2) < x - inject_Z n /\ x - inject_Z n < 1 # 2)%Q).
  { split.
    - apply Qnot_le_lt. intros Hle.
      assert (Hle' : (1 # 2 <= Qabs (x - inject_Z n))%Q).
      { rewrite Qabs_neg by lra. lra. }
      lra.
    - apply Qnot_le_lt. intros Hle.
      assert (Hle' : (1 # 2 <= Qabs (x - inject_Z n))%Q).
      { rewrite Qabs_pos by lra. lra. }
      lra. }
  assert (Hlo : (inject_Z (n + -1) < inject_Z (round_float x))%Q).
  { rewrite inject_Z_plus. change (inject_Z (-1)) with (-1)%Q. lra. }
  assert (Hhi : (inject_Z (round_float x) < inject_Z (n + 1))%Q).
  { rewrite inject_Z_plus. change (inject_Z 1) with 1%Q. lra. }
  rewrite <- Zlt_Qlt in Hlo, Hhi. lia.
Qed.

(** X3. The setter of [phase_shift] never raises and never overflows the
    byte: for every rational input it writes [H] followed by exactly 3
    digits that denote a number of 0..255; that number is 0 for an input at
    or below 0 and 255 for an input at or above 358.6. *)
Theorem phase_shift_always_writes_a_byte
        (v : Q) (self : Kusg245_250A.t) (tr : io) :
  exists byte : Z,
    0 <= byte <= 255
    /\ writes_numeral (fset Kusg245_250A.phase_shift v) self tr "H" 3 byte
    /\ ((v <= 0)%Q -> byte = 0)
    /\ ((358.6 <= v)%Q -> byte = 255).
Proof.
  destruct (truncated_range_Q 0 358.6 v ltac:(reflexivity))
    as [v' [Hret [Hin [_ Hsame]]]].
  pose proof (phase_byte_range v' Hin) as Hbyte.
  exists (Kusg245_250A.phase_shift_set_process v').
  split; [exact Hbyte|]. split; [|split].
  - apply (fset_writes_numeral Kusg245_250A.phase_shift "H" 3 v v');
      [reflexivity | exact Hret | reflexivity | now apply zfill_3].
  - intros Hv.
    assert (Hv' : (v' <= 0)%Q).
    { destruct (Qlt_le_dec v 0) as [Hlt|Hge].
      - unfold truncated_range in Hret. cbn [py_min_from py_max_from] in Hret.
        unfold le, lt in Hret. cbn [num PyNumber_Q] in Hret.
        assert (E : Qle_bool 0 v = false).
        { destruct (Qle_bool 0 v) eqn:E; [|reflexivity].
          apply Qle_bool_iff in E. lra. }
        change (Qle_bool 0 358.6) with true in Hret.
        change (Qle_bool 358.6 0) with false in Hret.
        cbn [negb] in Hret. rewrite E in Hret. cbn [andb] in Hret.
        assert (E' : Qle_bool v 358.6 = true) by (apply Qle_bool_iff; lra).
        rewrite E' in Hret. cbn [negb] in Hret.
        injection Hret as <-. lra.
      - rewrite (Hsame ltac:(split; lra)). exact Hv. }
    apply round_float_integer.
    assert (E1 : (v' / 360 * 256 - inject_Z 0 == v' * (256 # 360))%Q)
      by (change (inject_Z 0) with 0%Q; field).
    rewrite E1. destruct Hin as [Hlo Hhi].
    rewrite Qabs_pos by lra. lra.
  - intros Hv.
    assert (Hv' : (358.6 <= v')%Q).
    { destruct (Qlt_le_dec 358.6 v) as [Hlt|Hge].
      - unfold truncated_range in Hret. cbn [py_min_from py_max_from] in Hret.
        unfold le, lt in Hret. cbn [num PyNumber_Q] in Hret.
        assert (E : Qle_bool v 358.6 = false).
        { destruct (Qle_bool v 358.6) eqn:E; [|reflexivity].
          apply Qle_bool_iff in E. lra. }
        change (Qle_bool 0 358.6) with true in Hret.
        change (Qle_bool 358.6 0) with false in Hret.
        cbn [negb] in Hret. rewrite E in Hret.
        rewrite andb_false_r in Hret. cbn [negb] in Hret.
        injection Hret as <-. lra.
      - rewrite (Hsame ltac:(split; lra)). exact Hv. }
    apply round_float_integer.
    assert (E1 : (v' / 360 * 256 - inject_Z 255 == v' * (256 # 360) - 255)%Q)
      by (change (inject_Z 255) with 255%Q; field).
    rewrite E1. destruct Hin as [Hlo Hhi].
    apply Qabs_Qlt_condition. split; lra.
Qed.

(** X4. Reading the phase and setting it again changes nothing: for every
    byte of 0..255 the getter's conversion [byte / 256 * 360] is a phase of
    [[0, 358.6]], and the setter given that phase writes the same byte. *)
Theorem phase_shift_read_then_set
        (byte : Z) (self : Kusg245_250A.t) (tr : io) :
  0 <= byte <= 255 ->
  (0 <= Kusg245_250A.phase_shift_get_process (inject_Z byte) <= 358.6)%Q
  /\ Kusg245_250A.phase_shift_set_process
       (Kusg245_250A.phase_shift_get_process (inject_Z byte)) = byte
  /\ writes_numeral
       (fset Kusg245_250A.phase_shift
             (Kusg245_250A.phase_shift_get_process (inject_Z byte)))
       self tr "H" 3 byte.
Proof.
  intros Hb.
  assert (Hq : (0 <= inject_Z byte <= 255)%Q).
  { change 0%Q with (inject_Z 0). change 255%Q with (inject_Z 255).
    rewrite <- !Zle_Qle. exact Hb. }
  assert (Hrange :
            (0 <= Kusg245_250A.phase_shift_get_process (inject_Z byte)
             <= 358.6)%Q).
  { unfold Kusg245_250A.phase_shift_get_process.
    assert (E : (inject_Z byte / 256 * 360 == inject_Z byte * (360 # 256))%Q)
      by field.
    rewrite E. split; lra. }
  assert (Hback :
            Kusg245_250A.phase_shift_set_process
              (Kusg245_250A.phase_shift_get_process (inject_Z byte)) = byte).
  { unfold Kusg245_250A.phase_shift_set_process,
           Kusg245_250A.phase_shift_get_process.
    apply round_float_integer.
    assert (E : (inject_Z byte / 256 * 360 / 360 * 256 - inject_Z byte
                 == 0)%Q) by field.
    rewrite E. reflexivity. }
  split; [exact Hrange|]. split; [exact Hback|].
  apply (fset_writes_numeral
           Kusg245_250A.phase_shift "H" 3
           (Kusg245_250A.phase_shift_get_process (inject_Z byte))
           (Kusg245_250A.phase_shift_get_process (inject_Z byte)));
    [reflexivity | now apply truncated_range_Q_inside | | now apply zfill_3].
  simpl. now rewrite Hback.
Qed.

Lemma phase_shift_read_then_set_witness :
  (0 <= Kusg245_250A.phase_shift_get_process (inject_Z 64) <= 358.6)%Q
  /\ Kusg245_250A.phase_shift_set_process
       (Kusg245_250A.phase_shift_get_process (inject_Z 64)) = 64
  /\ writes_numeral
       (fset Kusg245_250A.phase_shift
             (Kusg245_250A.phase_shift_get_process (inject_Z 64)))
       (Kusg245_250A.mkT 250 [Integer 0; Integer 250]) (mkIO [] []) "H" 3 64.
Proof.
  apply (phase_shift_read_then_set 64). lia.
Defined.

(* ================================================================== *)
(** ** Further properties: pulse timing on every input                 *)
(* ================================================================== *)

(** A setter declared like [pulse_width] and [off_time]. *)
Lemma fives_setter_run {S} (c : control Z Q Q) (letter : string) (v : Z)
      (self : S) (tr : io) :
  set_command c = Some (percent_d_float letter 4 "") ->
  validator c = truncated_range ->
  values c = [10; 1000] ->
  set_process c = Kusg245_250A.half_round_tens ->
  map_values c = no_map ->
  exists q : Z,
    Z.abs (5 * q - Z.max 10 (Z.min 1000 v)) <= 2
    /\ writes_numeral (fset c v) self tr letter 4 (5 * q).
Proof.
  intros Hc Hval Hvalues Hproc Hmap.
  destruct (half_round_tens_fives (Z.max 10 (Z.min 1000 v))) as [q [Hw Hq]].
  exists q. split; [exact Hq|].
  exists (zfill 4 (5 * q)). split; [apply zfill_4; lia|].
  rewrite <- percent_d_no_suffix, <- Hw.
  apply (fset_returns c (percent_d_float letter 4 "") v
                      (Z.max 10 (Z.min 1000 v))).
  - exact Hc.
  - rewrite Hval, Hvalues. apply truncated_range_Z. lia.
  - now rewrite Hmap, Hproc.
Qed.

(** X5. For every integer input, in range or not, the setters of
    [pulse_width] and [off_time] write [C], respectively [c], followed by
    exactly 4 digits: those of the multiple of 5 nearest to the input
    clamped to [[10, 1000]], itself in that range. Setting that multiple
    again writes the same command. *)
Theorem pulse_width_and_off_time_settle
        (v : Z) (self : Kusg245_250A.t) (tr : io) :
  exists c w : Z,
    clamped 10 1000 v c
    /\ nearest_multiple 5 c w
    /\ 10 <= w <= 1000
    /\ writes_numeral (fset Kusg245_250A.pulse_width v) self tr "C" 4 w
    /\ writes_numeral (fset Kusg245_250A.off_time v) self tr "c" 4 w
    /\ writes_numeral (fset Kusg245_250A.pulse_width w) self tr "C" 4 w
    /\ writes_numeral (fset Kusg245_250A.off_time w) self tr "c" 4 w.
Proof.
  destruct (fives_setter_run Kusg245_250A.pulse_width "C" v self tr)
    as [q [Hq Hpw]]; try reflexivity.
  destruct (fives_setter_run Kusg245_250A.off_time "c" v self tr)
    as [q' [Hq' Hot]]; try reflexivity.
  assert (q' = q) by lia. subst q'.
  destruct (fives_setter_run Kusg245_250A.pulse_width "C" (5 * q) self tr)
    as [q1 [Hq1 Hpw1]]; try reflexivity.
  destruct (fives_setter_run Kusg245_250A.off_time "c" (5 * q) self tr)
    as [q2 [Hq2 Hot2]]; try reflexivity.
  assert (q1 = q) by lia. assert (q2 = q) by lia. subst q1 q2.
  exists (Z.max 10 (Z.min 1000 v)), (5 * q).
  split; [unfold clamped; lia|].
  split; [now apply nearest_multiple_5|].
  split; [lia|]. auto.
Qed.

(* ================================================================== *)
(** ** Further properties: rounding of the fine frequency              *)
(* ================================================================== *)

(** [round(n, -1)] does not reverse the order of its arguments. *)
Lemma round_int_tens_monotone (a b : Z) :
  a <= b -> round_int a (-1) <= round_int b (-1).
Proof.
  intros Hab. unfold round_int, divmod_near.
  change (0 <=? -1) with false. change (10 ^ (- -1)) with 10. cbv iota.
  pose proof (Z.div_mod a 10 ltac:(lia)) as Ha.
  pose proof (Z.mod_pos_bound a 10 ltac:(lia)) as Hra.
  pose proof (Z.div_mod b 10 ltac:(lia)) as Hb.
  pose proof (Z.mod_pos_bound b 10 ltac:(lia)) as Hrb.
  destruct (Z.eq_dec (a / 10) (b / 10)) as [E|N].
  - rewrite E in *.
    destruct (Z.odd (b / 10));
      destruct (Z.ltb_spec 10 (2 * (a mod 10)));
      destruct (Z.eqb_spec (2 * (a mod 10)) 10);
      destruct (Z.ltb_spec 10 (2 * (b mod 10)));
      destruct (Z.eqb_spec (2 * (b mod 10)) 10);
      cbn [orb andb snd]; lia.
  - destruct (Z.odd (a / 10)); destruct (Z.odd (b / 10));
      destruct (Z.ltb_spec 10 (2 * (a mod 10)));
      destruct (Z.eqb_spec (2 * (a mod 10)) 10);
      destruct (Z.ltb_spec 10 (2 * (b mod 10)));
      destruct (Z.eqb_spec (2 * (b mod 10)) 10);
      cbn [orb andb snd]; lia.
Qed.

(** What the setter of [frequency_fine] sends. *)
Lemma frequency_fine_run (v : Z) (self : Kusg245_250A.t) (tr : io) :
  2400000 <= round_int (Z.max 2400000 (Z.min 2500000 v)) (-1) <= 2500000
  /\ writes_numeral (fset Kusg245_250A.frequency_fine v) self tr "f" 7
                    (round_int (Z.max 2400000 (Z.min 2500000 v)) (-1)).
Proof.
  set (c := Z.max 2400000 (Z.min 2500000 v)).
  destruct (round_int_tens c) as [q [Hround Hq]].
  assert (Hrange : 240000 <= q <= 250000) by (unfold c in Hq; lia).
  rewrite Hround. split; [lia|].
  apply (fset_writes_numeral Kusg245_250A.frequency_fine "f" 7 v c).
  - reflexivity.
  - apply truncated_range_Z. lia.
  - simpl. now rewrite Hround.
  - now apply zfill_7_fine.
Qed.

(** X6. The setter of [frequency_fine] keeps the order of its inputs and
    settles at once: of two integer inputs the smaller is never sent as the
    larger number, and setting the number that was sent sends it again. *)
Theorem frequency_fine_is_monotone_and_settles
        (v1 v2 : Z) (self : Kusg245_250A.t) (tr : io) :
  v1 <= v2 ->
  exists n1 n2 : Z,
    writes_numeral (fset Kusg245_250A.frequency_fine v1) self tr "f" 7 n1
    /\ writes_numeral (fset Kusg245_250A.frequency_fine v2) self tr "f" 7 n2
    /\ n1 <= n2
    /\ writes_numeral (fset Kusg245_250A.frequency_fine n1) self tr "f" 7 n1.
Proof.
  intros Hle.
  destruct (frequency_fine_run v1 self tr) as [Hr1 Hw1].
  destruct (frequency_fine_run v2 self tr) as [_ Hw2].
  exists (round_int (Z.max 2400000 (Z.min 2500000 v1)) (-1)),
         (round_int (Z.max 2400000 (Z.min 2500000 v2)) (-1)).
  split; [exact Hw1|]. split; [exact Hw2|]. split.
  - apply round_int_tens_monotone. lia.
  - set (n1 := round_int (Z.max 2400000 (Z.min 2500000 v1)) (-1)) in *.
    destruct (frequency_fine_run n1 self tr) as [_ Hw].
    assert (E : round_int (Z.max 2400000 (Z.min 2500000 n1)) (-1) = n1).
    { replace (Z.max 2400000 (Z.min 2500000 n1)) with n1 by lia.
      destruct (round_int_tens (Z.max 2400000 (Z.min 2500000 v1)))
        as [q [Hq _]].
      fold n1 in Hq.
      destruct (round_int_tens n1) as [q' [Hq' Hnear]].
      lia. }
    now rewrite E in Hw.
Qed.

Lemma frequency_fine_is_monotone_and_settles_witness :
  exists n1 n2 : Z,
    writes_numeral (fset Kusg245_250A.frequency_fine 2449994)
                (Kusg245_250A.mkT 250 [Integer 0; Integer 250]) (mkIO [] [])
                "f" 7 n1
    /\ writes_numeral (fset Kusg245_250A.frequency_fine 2449996)
                   (Kusg245_250A.mkT 250 [Integer 0; Integer 250]) (mkIO [] [])
                   "f" 7 n2
    /\ n1 <= n2
    /\ writes_numeral (fset Kusg245_250A.frequency_fine n1)
                   (Kusg245_250A.mkT 250 [Integer 0; Integer 250]) (mkIO [] [])
                   "f" 7 n1.
Proof.
  apply (frequency_fine_is_monotone_and_settles 2449994 2449996). lia.
Defined.

(** X7. A fine frequency half-way between two multiples of ten goes to the
    one whose number of tens is even, not always upwards: for [q] of
    240000..249999 the input [10 * q + 5] is sent as [10 * q] when [q] is
    even and as [10 * q + 10] when [q] is odd. *)
Theorem frequency_fine_rounds_ties_to_even
        (q : Z) (self : Kusg245_250A.t) (tr : io) :
  240000 <= q < 250000 ->
  writes_numeral (fset Kusg245_250A.frequency_fine (10 * q + 5)) self tr
                 "f" 7 (if Z.even q then 10 * q else 10 * q + 10).
Proof.
  intros Hq.
  destruct (frequency_fine_run (10 * q + 5) self tr) as [_ Hw].
  replace (Z.max 2400000 (Z.min 2500000 (10 * q + 5))) with (10 * q + 5)
    in Hw by lia.
  assert (E : round_int (10 * q + 5) (-1)
              = if Z.even q then 10 * q else 10 * q + 10).
  { unfold round_int, divmod_near.
    change (0 <=? -1) with false. change (10 ^ (- -1)) with 10. cbv iota.
    assert (Ediv : (10 * q + 5) / 10 = q)
      by (symmetry; apply (Z.div_unique _ _ q 5); lia).
    assert (Emod : (10 * q + 5) mod 10 = 5)
      by (symmetry; apply (Z.mod_unique _ _ q 5); lia).
    rewrite Ediv, Emod. rewrite <- Z.negb_even.
    destruct (Z.even q); cbn; lia. }
  now rewrite E in Hw.
Qed.

Lemma frequency_fine_rounds_ties_to_even_witness :
  writes_numeral (fset Kusg245_250A.frequency_fine (10 * 240000 + 5))
                 (Kusg245_250A.mkT 250 [Integer 0; Integer 250]) (mkIO [] [])
                 "f" 7 (if Z.even 240000 then 10 * 240000
                        else 10 * 240000 + 10).
Proof.
  apply (frequency_fine_rounds_ties_to_even 240000). lia.
Defined.

(* ================================================================== *)
(** ** Further properties: channel numbers in commands                 *)
(* ================================================================== *)

Lemma digits_parse (n : Z) :
  NilZero.uint_of_string (digits n) = Some (N.to_uint (Z.to_N n)).
Proof.
  unfold digits. apply NilZero.usu.
  destruct (Z.to_N n) as [|p]; simpl.
  - discriminate.
  - apply DecimalPos.Unsigned.to_uint_nonnil.
Qed.

Lemma digits_inj (a b : Z) :
  0 <= a -> 0 <= b -> digits a = digits b -> a = b.
Proof.
  intros Ha Hb E.
  pose proof (digits_parse a) as Pa. rewrite E, digits_parse in Pa.
  injection Pa as Pa. apply DecimalN.Unsigned.to_uint_inj in Pa. lia.
Qed.

Lemma digits_no_sign (n : Z) (s : string) : digits n <> String "-" s.
Proof.
  intros E. pose proof (digits_parse n) as P. rewrite E in P.
  simpl in P. destruct (NilEmpty.uint_of_string s); discriminate P.
Qed.

(** The plain [%d]. *)
Lemma zfill_0 (z : Z) :
  zfill 0 z = if z <? 0 then String "-" (digits (Z.abs z))
              else digits (Z.abs z).
Proof. unfold zfill. destruct (z <? 0); reflexivity. Qed.

Lemma zfill_0_inj (a b : Z) : zfill 0 a = zfill 0 b -> a = b.
Proof.
  rewrite !zfill_0.
  destruct (Z.ltb_spec a 0), (Z.ltb_spec b 0); intros E.
  - injection E as E. apply digits_inj in E; lia.
  - symmetry in E. now apply digits_no_sign in E.
  - now apply digits_no_sign in E.
  - apply digits_inj in E; lia.
Qed.

Lemma append_inv_head (p a b : string) : p +++ a = p +++ b -> a = b.
Proof.
  induction p as [|c p IH]; simpl; intros E; [exact E|].
  injection E as E. now apply IH.
Qed.

Lemma append_inv_tail (a b p : string) : a +++ p = b +++ p -> a = b.
Proof.
  revert b. induction a as [|c a IH]; intros [|d b] E; simpl in E.
  - reflexivity.
  - apply (f_equal String.length) in E. simpl in E.
    rewrite append_length in E. lia.
  - apply (f_equal String.length) in E. simpl in E.
    rewrite append_length in E. lia.
  - injection E as -> E. f_equal. now apply IH.
Qed.

(** A command made with the plain [%d] tells the number it was made from. *)
Lemma percent_d_plain_inj (pre post : string) (a b : Z) :
  percent_d pre 0 post a = percent_d pre 0 post b -> a = b.
Proof.
  unfold percent_d. intros E.
  apply append_inv_head, append_inv_tail in E. now apply zfill_0_inj.
Qed.

(** X8. The command of a channel tells the channel: [open_channel] given
    two different integers writes two different commands, so does
    [close_channel], and an open command is never a close command. *)
Theorem channel_commands_tell_the_channel
        (c1 c2 : Z) (self : Keithley705.t) (tr : io) :
  (Keithley705.open_channel c1 self tr = Keithley705.open_channel c2 self tr
   -> c1 = c2)
  /\ (Keithley705.close_channel c1 self tr
      = Keithley705.close_channel c2 self tr -> c1 = c2)
  /\ Keithley705.open_channel c1 self tr
     <> Keithley705.close_channel c2 self tr.
Proof.
  unfold Keithley705.open_channel, Keithley705.close_channel, write, emit.
  split; [|split]; intros E; injection E as E; apply app_inv_head in E.
  - assert (E' : percent_d "N" 0 "X" c1 = percent_d "N" 0 "X" c2)
      by congruence.
    now apply percent_d_plain_inj in E'.
  - assert (E' : percent_d "C" 0 "X" c1 = percent_d "C" 0 "X" c2)
      by congruence.
    now apply percent_d_plain_inj in E'.
  - discriminate E.
Qed.

(* ================================================================== *)
(** ** Further properties: the relays after [exclusive_close]          *)
(* ================================================================== *)

Lemma string_eqb_false (a b : string) : a <> b -> (a =? b)%string = false.
Proof. intros N. now apply String.eqb_neq. Qed.

Lemma obey_open (s : Scanner.state) (c k : Z) :
  Scanner.obey s (Write (percent_d "N" 0 "X" c)) k
  = if k =? c then false else s k.
Proof.
  unfold Scanner.obey.
  change (percent_d "N" 0 "X" c =? "RX")%string with false.
  destruct (Z.eqb_spec k c) as [->|N].
  - now rewrite String.eqb_refl.
  - rewrite string_eqb_false
      by (intros E; apply percent_d_plain_inj in E; congruence).
    reflexivity.
Qed.

Lemma obey_close (s : Scanner.state) (c k : Z) :
  Scanner.obey s (Write (percent_d "C" 0 "X" c)) k
  = if k =? c then true else s k.
Proof.
  unfold Scanner.obey.
  change (percent_d "C" 0 "X" c =? "RX")%string with false.
  change (percent_d "C" 0 "X" c =? percent_d "N" 0 "X" k)%string with false.
  destruct (Z.eqb_spec k c) as [->|N].
  - now rewrite String.eqb_refl.
  - rewrite string_eqb_false
      by (intros E; apply percent_d_plain_inj in E; congruence).
    reflexivity.
Qed.

(** After a run of open commands a channel is open if its command was among
    them, and as it was otherwise. *)
Lemma run_opens (ks : list Z) (s : Scanner.state) (k : Z) :
  Scanner.run s (map (fun c => Write (percent_d "N" 0 "X" c)) ks) k
  = if existsb (Z.eqb k) ks then false else s k.
Proof.
  unfold Scanner.run. revert s.
  induction ks as [|c ks IH]; intros s; cbn [map fold_left existsb];
    [reflexivity|].
  rewrite IH, obey_open.
  destruct (existsb (Z.eqb k) ks); [now rewrite orb_true_r|].
  rewrite orb_false_r. reflexivity.
Qed.

(** X9. [exclusive_close c] does what its docstring says, whatever state
    the relays were in and whatever integer [c] is: afterwards a channel [k]
    of 1..20 is closed exactly when [k = c]. So two calls in a row leave
    only the second channel closed, and a [c] outside 1..20 leaves all
    twenty channels open. The constructor's [RX] opens every channel. *)
Theorem exclusive_close_leaves_only_its_channel_closed
        (c : Z) (tr0 tr1 tr : io) (self : Keithley705.t)
        (relays : Scanner.state) :
  Keithley705.init tr0 = (Return tt, self, tr1) ->
  (tr1 = written tr0 [Write "RX"]
   /\ forall k, Scanner.run relays [Write "RX"] k = false)
  /\ exists events : list event,
      Keithley705.exclusive_close c self tr
      = (Return tt, self, written tr events)
      /\ forall k, 1 <= k <= 20 -> Scanner.run relays events k = (k =? c).
Proof.
  intros Hinit. split.
  - split; [|reflexivity].
    unfold Keithley705.init, Keithley705.reset, write, emit in Hinit.
    now injection Hinit as _ <-.
  - rewrite exclusive_close_run, (Keithley705_init_channels _ _ _ Hinit).
    eexists. split; [reflexivity|].
    intros k Hk. unfold Scanner.run. rewrite fold_left_app.
    cbn [fold_left]. rewrite obey_close.
    destruct (Z.eqb_spec k c) as [->|N]; [reflexivity|].
    fold (Scanner.run relays
            (map (fun c0 => Write (percent_d "N" 0 "X" c0))
                 (filter (fun k0 => negb (k0 =? c)) (range 1 21)))).
    rewrite run_opens.
    assert (E : existsb (Z.eqb k)
                        (filter (fun k0 => negb (k0 =? c)) (range 1 21))
                = true).
    { apply existsb_exists. exists k. split; [|apply Z.eqb_refl].
      apply filter_In. split.
      - unfold range. apply In_range_from. simpl. lia.
      - apply negb_true_iff, Z.eqb_neq, N. }
    now rewrite E.
Qed.

Lemma exclusive_close_leaves_only_its_channel_closed_witness :
  (mkIO [Write "RX"] [] = written (mkIO [] []) [Write "RX"]
   /\ forall k, Scanner.run (fun _ => true) [Write "RX"] k = false)
  /\ exists events : list event,
      Keithley705.exclusive_close 7 (Keithley705.mkT (range 1 21))
                                  (mkIO [Write "RX"] [])
      = (Return tt, Keithley705.mkT (range 1 21),
         written (mkIO [Write "RX"] []) events)
      /\ forall k, 1 <= k <= 20 ->
                   Scanner.run (fun _ => true) events k = (k =? 7).
Proof.
  apply (exclusive_close_leaves_only_its_channel_closed
           7 (mkIO [] []) (mkIO [Write "RX"] [])).
  reflexivity.
Defined.

(* ================================================================== *)
(** ** Further properties: turning on and shutting down repeatedly     *)
(* ================================================================== *)

Lemma turn_on_run (self : Kusg245_250A.t) (tr : io) :
  Kusg245_250A.turn_on self tr
  = (Return tt, self, written tr [Write "X"; Sleep 0.500; Write "O"]).
Proof.
  unfold Kusg245_250A.turn_on, fset, bind, sleep, write, emit, written.
  simpl. now rewrite <- !app_assoc.
Qed.

Lemma shutdown_run (self : Kusg245_250A.t) (tr : io) :
  Kusg245_250A.shutdown self tr
  = (Return tt, self, written tr [Write "o"; Write "x"]).
Proof.
  unfold Kusg245_250A.shutdown, fset, bind, write, emit, written.
  simpl. now rewrite <- !app_assoc.
Qed.

Lemma for_each_switch (ps : list power_switch) (self : Kusg245_250A.t)
      (tr : io) :
  for_each ps switch self tr
  = (Return tt, self,
     written tr
       (flat_map (fun p => match p with
                           | TurnOn => [Write "X"; Sleep 0.500; Write "O"]
                           | Shutdown => [Write "o"; Write "x"]
                           end) ps)).
Proof.
  revert tr. induction ps as [|p ps IH]; intros tr; cbn [for_each flat_map].
  - now rewrite written_nil.
  - unfold bind. destruct p; cbn [switch].
    + rewrite turn_on_run, IH, written_written. reflexivity.
    + rewrite shutdown_run, IH, written_written. reflexivity.
Qed.

Lemma skipn_length_app {A} (l l' : list A) :
  skipn (List.length l) (l ++ l') = l'.
Proof. induction l as [|a l IH]; simpl; [reflexivity | exact IH]. Qed.

Lemma switched_events (ps : list power_switch) (self : Kusg245_250A.t)
      (tr : io) :
  switched ps self tr
  = flat_map (fun p => match p with
                       | TurnOn => [Write "X"; Sleep 0.500; Write "O"]
                       | Shutdown => [Write "o"; Write "x"]
                       end) ps.
Proof.
  unfold switched. rewrite for_each_switch. simpl.
  apply skipn_length_app.
Qed.

Lemma states_app (s : Amplifier.state) (xs ys : list event) :
  Amplifier.states s (xs ++ ys)
  = Amplifier.states s xs ++ Amplifier.states (left_in s xs) ys.
Proof.
  revert s. induction xs as [|e xs IH]; intros s; simpl; [reflexivity|].
  now rewrite IH.
Qed.

Lemma left_in_app (s : Amplifier.state) (xs ys : list event) :
  left_in s (xs ++ ys) = left_in (left_in s xs) ys.
Proof. unfold left_in. apply fold_left_app. Qed.

(** X10. [turn_on] and [shutdown] may be called in any order and any
    number of times: whatever state the amplifier was in, after each command
    of the sequence RF is not on with the bias off; and the last call
    decides where the amplifier is left, bias and RF both on after
    [turn_on], both off after [shutdown]. *)
Theorem turn_on_and_shutdown_in_any_order
        (ps : list power_switch) (s0 : Amplifier.state)
        (self : Kusg245_250A.t) (tr : io) :
  forallb Amplifier.safe (Amplifier.states s0 (switched ps self tr)) = true
  /\ forall p : power_switch,
      left_in s0 (switched (ps ++ [p]) self tr)
      = match p with
        | TurnOn => Amplifier.mkState true true
        | Shutdown => Amplifier.mkState false false
        end.
Proof.
  split.
  - rewrite switched_events. revert s0.
    induction ps as [|p ps IH]; intros s0; cbn [flat_map]; [reflexivity|].
    rewrite states_app, forallb_app, IH, andb_true_r.
    destruct p, s0 as [[|] [|]]; reflexivity.
  - intros p. rewrite switched_events, flat_map_app, left_in_app.
    cbn [flat_map]. rewrite app_nil_r.
    destruct (left_in s0 _) as [[|] [|]]; destruct p; reflexivity.
Qed.

(* ================================================================== *)
(** ** Further properties: the named settings of the scanner           *)
(* ================================================================== *)

(** A setter with a strict validator and a dict, given a key of the dict. *)
Lemma fset_key {S} (c : control string string Z) (d : dict string Z)
      (template : Z -> string) (name : string) (code : Z)
      (self : S) (tr : io) :
  set_command c = Some template ->
  validator c = strict_discrete_set ->
  values c = keys d ->
  set_process c = (fun v => v) ->
  map_values c = map_dict d ->
  In name (keys d) ->
  map_dict d name = Return code ->
  fset c name self tr = (Return tt, self, written tr [Write (template code)]).
Proof.
  intros Hc Hval Hvalues Hproc Hmap HIn Hcode.
  apply (fset_returns c template name name code); [exact Hc | |].
  - rewrite Hval, Hvalues. unfold strict_discrete_set.
    apply py_in_string in HIn. now rewrite HIn.
  - now rewrite Hmap, Hproc.
Qed.

(** X11. [display_mode] and [date_format] take exactly the names of their
    tables, as they are spelt: a name of the table is sent as [D{code}X],
    respectively [E{code}X], with its code; any other string raises and
    writes nothing; and two different names are never sent as the same
    command. *)
Theorem display_mode_and_date_format_take_their_names
        (name : string) (self : Keithley705.t) (tr : io) :
  (forall code : Z,
      In (name, code) Keithley705.display_mode_values ->
      fset Keithley705.display_mode name self tr
      = (Return tt, self, written tr [Write (percent_d "D" 0 "X" code)]))
  /\ (~ In name ["channel"; "interval"; "time"; "date"; "message"] ->
      fset Keithley705.display_mode name self tr = (Raise ValueError, self, tr))
  /\ (forall code : Z,
         In (name, code) Keithley705.date_format_values ->
         fset Keithley705.date_format name self tr
         = (Return tt, self, written tr [Write (percent_d "E" 0 "X" code)]))
  /\ (~ In name ["American"; "International"] ->
      fset Keithley705.date_format name self tr = (Raise ValueError, self, tr))
  /\ (forall (other : string) (code code' : Z),
         In (name, code) Keithley705.display_mode_values ->
         In (other, code') Keithley705.display_mode_values ->
         percent_d "D" 0 "X" code = percent_d "D" 0 "X" code' ->
         name = other)
  /\ (forall (other : string) (code code' : Z),
         In (name, code) Keithley705.date_format_values ->
         In (other, code') Keithley705.date_format_values ->
         percent_d "E" 0 "X" code = percent_d "E" 0 "X" code' ->
         name = other).
Proof.
  split; [|split; [|split; [|split; [|split]]]].
  - intros code HIn.
    apply (fset_key Keithley705.display_mode Keithley705.display_mode_values);
      try reflexivity.
    + apply (in_map fst) in HIn. exact HIn.
    + simpl in HIn.
      destruct HIn as [E|[E|[E|[E|[E|[]]]]]]; injection E as <- <-;
        reflexivity.
  - intros Hout.
    apply (strict_rejects Keithley705.display_mode);
      [reflexivity | discriminate |].
    destruct (py_in name (values Keithley705.display_mode)) eqn:E;
      [|reflexivity].
    apply py_in_string in E. contradiction.
  - intros code HIn.
    apply (fset_key Keithley705.date_format Keithley705.date_format_values);
      try reflexivity.
    + apply (in_map fst) in HIn. exact HIn.
    + simpl in HIn.
      destruct HIn as [E|[E|[]]]; injection E as <- <-; reflexivity.
  - intros Hout.
    apply (strict_rejects Keithley705.date_format);
      [reflexivity | discriminate |].
    destruct (py_in name (values Keithley705.date_format)) eqn:E;
      [|reflexivity].
    apply py_in_string in E. contradiction.
  - intros other code code' H1 H2 E.
    apply percent_d_plain_inj in E. subst code'. simpl in H1, H2.
    destruct H1 as [H1|[H1|[H1|[H1|[H1|[]]]]]]; injection H1 as <- <-;
      destruct H2 as [H2|[H2|[H2|[H2|[H2|[]]]]]];
      inversion H2; subst; reflexivity.
  - intros other code code' H1 H2 E.
    apply percent_d_plain_inj in E. subst code'. simpl in H1, H2.
    destruct H1 as [H1|[H1|[]]]; injection H1 as <- <-;
      destruct H2 as [H2|[H2|[]]];
      inversion H2; subst; reflexivity.
Qed.
